(** * image-recognition-webapp: postprocessing, model registry and result store

    A shallow embedding of the Go services of the image-recognition web
    application (internal/services and internal/handlers) together with the
    properties its specification states about them.

    - [float32] and [float64] values are IEEE-754 binary floats, represented
      by the Standard Library's executable [spec_float] with the operations
      of [SpecFloat] at precision 24/128 and 53/1024.
    - [int64] counters are integers with their wrap-around written out.
    - Go maps are finite maps ([gmap]); slices are lists.
    - What the code obtains from outside the repository (math.Exp, math.Sin,
      sort.Slice, the image codecs, the file system, the clock and the random
      source) is a parameter of the model. *)

From Stdlib Require Import ZArith QArith Qabs List Bool Lia Permutation Sorted.
From Stdlib Require Import Floats.SpecFloat.
From stdpp Require Import gmap strings list fin_maps pretty.

Local Open Scope Z_scope.

(** ** Machine integers *)

Definition int64_min : Z := - 2 ^ 63.
Definition int64_max : Z := 2 ^ 63 - 1.

(** Two's complement wrap-around of a 64-bit signed integer. *)
Definition wrap64 (z : Z) : Z := (z + 2 ^ 63) mod 2 ^ 64 - 2 ^ 63.

Definition in_int64 (z : Z) : Prop := int64_min <= z <= int64_max.

(** ** IEEE-754 binary floats *)

Abbreviation float32 := spec_float (only parsing).
Abbreviation float64 := spec_float (only parsing).

Module F32.
Definition prec : Z := 24.
Definition emax : Z := 128.
Definition add : float32 -> float32 -> float32 := SFadd prec emax.
Definition sub : float32 -> float32 -> float32 := SFsub prec emax.
Definition mul : float32 -> float32 -> float32 := SFmul prec emax.
Definition div : float32 -> float32 -> float32 := SFdiv prec emax.
(** Go's [a > b] and [a < b]; both are false as soon as one side is NaN. *)
Definition gtb (a b : float32) : bool := SFltb b a.
Definition ltb (a b : float32) : bool := SFltb a b.
(** The float32 nearest to [m * 2^e]. *)
Definition lit (m e : Z) : float32 := binary_normalize prec emax m e false.
Definition zero : float32 := S754_zero false.
(** Conversion [float32(x)] of a float64: rounding to nearest even. *)
Definition of_float64 (x : float64) : float32 :=
  match x with
  | S754_finite s m e => binary_normalize prec emax (cond_Zopp s (Zpos m)) e s
  | _ => x
  end.
End F32.

Module F64.
Definition prec : Z := 53.
Definition emax : Z := 1024.
Definition add : float64 -> float64 -> float64 := SFadd prec emax.
Definition sub : float64 -> float64 -> float64 := SFsub prec emax.
Definition mul : float64 -> float64 -> float64 := SFmul prec emax.
Definition div : float64 -> float64 -> float64 := SFdiv prec emax.
Definition opp : float64 -> float64 := SFopp.
Definition gtb (a b : float64) : bool := SFltb b a.
Definition ltb (a b : float64) : bool := SFltb a b.
Definition lit (m e : Z) : float64 := binary_normalize prec emax m e false.
Definition zero : float64 := S754_zero false.
Definition one : float64 := lit 1 0.
(** Conversion [float64(n)] of an int64. *)
Definition of_int (n : Z) : float64 := binary_normalize prec emax n 0 false.
(** Conversion [float64(x)] of a float32: exact, renormalised to 53 bits. *)
Definition of_float32 (x : float32) : float64 :=
  match x with
  | S754_finite s m e => binary_normalize prec emax (cond_Zopp s (Zpos m)) e s
  | _ => x
  end.
End F64.

Definition is_nan (x : spec_float) : bool :=
  match x with S754_nan => true | _ => false end.

(** The decimal constants of the source, as the binary64 values the Go
    compiler rounds them to. *)
Definition c_0_5 : float64 := F64.lit 1 (-1).                    (* 0x1p-1 *)
Definition c_0_1 : float64 := F64.lit 3602879701896397 (-55).    (* 0x1.999999999999ap-4 *)
Definition c_0_01 : float64 := F64.lit 5764607523034235 (-59).   (* 0x1.47ae147ae147bp-7 *)
Definition c_0_3 : float64 := F64.lit 5404319552844595 (-54).    (* 0x1.3333333333333p-2 *)
Definition c_0_7 : float64 := F64.lit 3152519739159347 (-52).    (* 0x1.6666666666666p-1 *)
Definition c_pi : float64 := F64.lit 884279719003555 (-48).      (* 0x1.921fb54442d18p+1 *)
Definition c_3 : float64 := F64.lit 3 0.
Definition c_700 : float64 := F64.lit 700 0.
Definition c_1000 : float64 := F64.lit 1000 0.
Definition c_1e6 : float64 := F64.lit 1000000 0.
Definition c_1e300 : float64 := F64.lit 1681218273811815 946.    (* 0x1.7e43c8800759cp+996 *)

(** ** Outcomes of a call *)

(** A Go call returns a value, returns an error, or panics. *)
Inductive outcome (E A : Type) : Type :=
  | Ok (a : A)
  | Err (e : E)
  | Panic.
Arguments Ok {E A} a.
Arguments Err {E A} e.
Arguments Panic {E A}.

Definition is_ok {E A} (o : outcome E A) : bool :=
  match o with Ok _ => true | _ => false end.
Definition is_err {E A} (o : outcome E A) : bool :=
  match o with Err _ => true | _ => false end.

(** ** image_processor.go *)

Record ClassificationPrediction := {
  ClassIndex : nat;
  ClassName : string;
  Probability : float32;
  Confidence : float32
}.

Inductive PostprocessError :=
  | ErrLengthMismatch (npred nclass : nat).

Section ImageProcessor.

(** Go's [math.Exp], on float64. *)
Variable mathExp : float64 -> float64.

(** [fastExp] *)
Definition fastExp (x : float64) : float64 :=
  if F64.ltb x (F64.opp c_700) then F64.zero
  else if F64.gtb x c_700 then c_1e300
  else mathExp x.

(** The first loop of [applySoftmax]: the running maximum. *)
Definition softmaxMax (first : float32) (logits : list float32) : float32 :=
  foldl (fun maxVal val => if F32.gtb val maxVal then val else maxVal) first logits.

(** The second loop: [expVals] and [expSum], filled in index order. *)
Definition softmaxExp (maxVal : float32) (logits : list float32)
  : list float32 * float32 :=
  foldl (fun '(expVals, expSum) val =>
           let e := F32.of_float64 (fastExp (F64.of_float32 (F32.sub val maxVal))) in
           (expVals ++ [e], F32.add expSum e))
        ([], F32.zero) logits.

(** [applySoftmax]; [None] is the index-out-of-range panic of [logits[0]]. *)
Definition applySoftmax (logits : list float32) : option (list float32) :=
  match logits !! 0%nat with
  | None => None
  | Some first =>
      let maxVal := softmaxMax first logits in
      let '(expVals, expSum) := softmaxExp maxVal logits in
      Some (map (fun expVal => F32.div expVal expSum) expVals)
  end.

(** The loop that builds [results] from the probabilities. *)
Fixpoint collectResults (i : nat) (probs : list float32) (classNames : list string)
  : list ClassificationPrediction :=
  match probs with
  | [] => []
  | prob :: rest =>
      match classNames !! i with
      | Some name =>
          {| ClassIndex := i; ClassName := name;
             Probability := prob; Confidence := prob |}
          :: collectResults (S i) rest classNames
      | None => collectResults (S i) rest classNames
      end
  end.

(** [if results[j].Probability > results[i].Probability { swap }] *)
Definition swapIfGreater (i j : nat) (results : list ClassificationPrediction)
  : list ClassificationPrediction :=
  match results !! i, results !! j with
  | Some ri, Some rj =>
      if F32.gtb (Probability rj) (Probability ri)
      then <[i := rj]> (<[j := ri]> results)
      else results
  | _, _ => results
  end.

(** The inner loop, [j] from [i+1] to [len(results)-1]. *)
Definition sortInner (i : nat) (results : list ClassificationPrediction)
  : list ClassificationPrediction :=
  foldl (fun r j => swapIfGreater i j r) results
        (seq (S i) (length results - S i)).

(** The outer loop, [i] from [0] to [len(results)-2]. *)
Definition sortDescending (results : list ClassificationPrediction)
  : list ClassificationPrediction :=
  foldl (fun r i => sortInner i r) results (seq 0 (length results - 1)).

(** [PostprocessPredictions] *)
Definition PostprocessPredictions (predictions : list float32)
    (classNames : list string) (topK : Z)
  : outcome PostprocessError (list ClassificationPrediction) :=
  if negb (length predictions =? length classNames)%nat
  then Err (ErrLengthMismatch (length predictions) (length classNames))
  else
    let topK := if topK <=? 0 then 5 else topK in
    match applySoftmax predictions with
    | None => Panic
    | Some softmaxPreds =>
        let results := collectResults 0 softmaxPreds classNames in
        let results := sortDescending results in
        Ok (if Z.of_nat (length results) >? topK
            then take (Z.to_nat topK) results
            else results)
    end.

End ImageProcessor.

(** ** internal/models *)

(** Instants and durations are counted in nanoseconds. *)
Abbreviation Time := Z (only parsing).

Record ModelInfo := {
  ID : string;
  Name : string;
  Version : string;
  Description : string;
  InputShape : list Z;
  OutputShape : list Z;
  Classes : list string;
  LoadedAt : Time;
  Metadata : gmap string string
}.

Record ModelHealth := {
  Status : string;
  HLastUsed : Time;
  HPredictions : Z;
  AvgTime : float64;
  HErrors : Z
}.

Record ModelStatus := {
  LoadedModels : Z;
  TotalModels : Z;
  Models : gmap string ModelHealth
}.

Record HealthCheck := {
  HCStatus : string;
  HCVersion : string;
  HCServices : gmap string string;
  HCModelStatus : ModelStatus
}.

Record ImageMetadata := {
  Filename : string;
  Size : Z;
  Width : Z;
  Height : Z;
  Format : string;
  ContentType : string;
  UploadedAt : Time
}.

Record ClassificationResult := {
  CRClassName : string;
  CRLabel : string;
  CRDescription : string;
  CRConfidence : float64;
  CRProbability : float64
}.

Record PredictionResult := {
  PRID : string;
  Predictions : list ClassificationResult;
  PRMetadata : ImageMetadata;
  ProcessedAt : Time;
  ProcessTime : float64;
  PRModelInfo : ModelInfo
}.

(** ** internal/config *)

Record ModelConfig := {
  Path : string;
  CfgVersion : string
}.

Record UploadConfig := {
  MaxFileSize : Z;
  AllowedTypes : list string
}.

Record Config := {
  Model : ModelConfig;
  Upload : UploadConfig
}.

(** The defaults [Load] uses when the environment sets nothing. *)
Definition defaultUploadConfig : UploadConfig := {|
  MaxFileSize := 10485760;
  AllowedTypes := ["image/jpeg"; "image/png"; "image/webp"]
|}.

(** ** model_service.go *)

Record LoadedModel := {
  Info : ModelInfo;
  Health : ModelHealth;
  LastUsed : Time;
  MPredictions : Z;
  Errors : Z;
  TotalTime : float64
}.

Record ModelService := {
  config : Config;
  models : gmap string LoadedModel;
  defaultModel : string
}.

Inductive StatResult := StatOk | StatNotExist | StatFailed.

Record DirEntry := {
  entryName : string;
  entryIsDir : bool
}.

(** What the operating system answers to [os.Stat], [os.ReadDir] and
    [os.ReadFile]. *)
Record FileSystem := {
  fsStat : string -> StatResult;
  fsReadDir : string -> option (list DirEntry);
  fsReadFile : string -> option (list Byte.byte)
}.

Inductive ModelError :=
  | ErrReadModelDir
  | ErrModelDirNotFound (dir : string)
  | ErrModelNotFound (modelID : string)
  | ErrReloadFailed (modelID : string).

(** [getDefaultClasses] *)
Definition getDefaultClasses : list string := [
  "cat"; "dog"; "bird"; "car"; "truck"; "airplane"; "boat"; "train";
  "bicycle"; "motorcycle"; "person"; "horse"; "sheep"; "cow"; "elephant";
  "bear"; "zebra"; "giraffe"; "backpack"; "umbrella"; "handbag"; "tie";
  "suitcase"; "frisbee"; "skis"; "snowboard"; "sports ball"; "kite";
  "baseball bat"; "baseball glove"; "skateboard"; "surfboard"; "tennis racket";
  "bottle"; "wine glass"; "cup"; "fork"; "knife"; "spoon"; "bowl";
  "banana"; "apple"; "sandwich"; "orange"; "broccoli"; "carrot";
  "hot dog"; "pizza"; "donut"; "cake"; "chair"; "couch"; "potted plant"
].

(** The health record of a model that has just been loaded. *)
Definition freshHealth (now : Time) : ModelHealth := {|
  Status := "healthy";
  HLastUsed := now;
  HPredictions := 0;
  AvgTime := F64.zero;
  HErrors := 0
|}.

Definition freshModel (info : ModelInfo) (now : Time) : LoadedModel := {|
  Info := info;
  Health := freshHealth now;
  LastUsed := now;
  MPredictions := 0;
  Errors := 0;
  TotalTime := F64.zero
|}.

(** [NewModelService] before it calls [LoadModels]. *)
Definition emptyModelService (cfg : Config) : ModelService := {|
  config := cfg;
  models := ∅;
  defaultModel := ""
|}.

Section ModelService.

Variable fs : FileSystem.
(** [filepath.Join] and [json.Unmarshal] into a [ModelInfo]. *)
Variable filepathJoin : string -> string -> string.
Variable jsonUnmarshal : list Byte.byte -> option ModelInfo.
(** The reading of [time.Now()] during the call; the successive readings
    within one call are identified. *)
Variable now : Time.

(** [createDummyModel]; the slice [getDefaultClasses()[:50]] is in range. *)
Definition dummyInfo : ModelInfo := {|
  ID := "dummy";
  Name := "Dummy Model";
  Version := "1.0.0";
  Description := "Development dummy model for testing";
  InputShape := [224; 224; 3];
  OutputShape := [50];
  Classes := take 50 getDefaultClasses;
  LoadedAt := now;
  Metadata := {[ "type" := "dummy" ]}
|}.

Definition createDummyModel (s : ModelService) : ModelService := {|
  config := config s;
  models := <[ "dummy" := freshModel dummyInfo now ]> (models s);
  defaultModel := "dummy"
|}.

(** [loadModelMetadata] *)
Definition loadModelMetadata (modelDir : string) : option ModelInfo :=
  match fsReadFile fs (filepathJoin modelDir "metadata.json") with
  | None => None
  | Some data =>
      match jsonUnmarshal data with
      | None => None
      | Some metadata =>
          Some {| ID := ID metadata; Name := Name metadata;
                  Version := Version metadata;
                  Description := Description metadata;
                  InputShape := InputShape metadata;
                  OutputShape := OutputShape metadata;
                  Classes := Classes metadata;
                  LoadedAt := now;
                  Metadata := Metadata metadata |}
      end
  end.

(** [createDefaultMetadata] *)
Definition createDefaultMetadata (s : ModelService) (modelID : string) : ModelInfo := {|
  ID := modelID;
  Name := "Model " +:+ modelID;
  Version := CfgVersion (Model (config s));
  Description := "Image classification model";
  InputShape := [224; 224; 3];
  OutputShape := [1000];
  Classes := getDefaultClasses;
  LoadedAt := now;
  Metadata := ∅
|}.

(** [loadModel] *)
Definition loadModel (s : ModelService) (modelID : string)
  : ModelService * option ModelError :=
  let modelDir := filepathJoin (Path (Model (config s))) modelID in
  match fsStat fs modelDir with
  | StatNotExist => (s, Some (ErrModelDirNotFound modelDir))
  | _ =>
      let metadata :=
        match loadModelMetadata modelDir with
        | Some metadata => metadata
        | None => createDefaultMetadata s modelID
        end in
      ({| config := config s;
          models := <[ modelID := freshModel metadata now ]> (models s);
          defaultModel := defaultModel s |}, None)
  end.

(** The body of the loop of [LoadModels] over the directory entries. *)
Definition loadEntry (acc : ModelService * Z) (entry : DirEntry) : ModelService * Z :=
  let '(s, loadedCount) := acc in
  if negb (entryIsDir entry) then (s, loadedCount)
  else
    let modelID := entryName entry in
    match loadModel s modelID with
    | (_, Some _) => (s, loadedCount)
    | (s', None) =>
        let loadedCount := loadedCount + 1 in
        if decide (defaultModel s' = "")
        then ({| config := config s'; models := models s';
                 defaultModel := modelID |}, loadedCount)
        else (s', loadedCount)
    end.

(** [LoadModels] *)
Definition LoadModels (s : ModelService) : ModelService * option ModelError :=
  let modelPath := Path (Model (config s)) in
  match fsStat fs modelPath with
  | StatNotExist => (createDummyModel s, None)
  | _ =>
      match fsReadDir fs modelPath with
      | None => (s, Some ErrReadModelDir)
      | Some entries =>
          let '(s', loadedCount) := foldl loadEntry (s, 0) entries in
          if loadedCount =? 0 then (createDummyModel s', None) else (s', None)
      end
  end.

(** [NewModelService]: an error of [LoadModels] is only logged. *)
Definition NewModelService (cfg : Config) : ModelService :=
  fst (LoadModels (emptyModelService cfg)).

End ModelService.

(** [GetModel] *)
Definition GetModel (s : ModelService) (modelID : string)
  : outcome ModelError LoadedModel :=
  let modelID := if decide (modelID = "") then defaultModel s else modelID in
  match models s !! modelID with
  | None => Err (ErrModelNotFound modelID)
  | Some model => Ok model
  end.

(** [GetDefaultModel] *)
Definition GetDefaultModel (s : ModelService) : outcome ModelError LoadedModel :=
  GetModel s (defaultModel s).

(** [ListModels]; the order is that of the iteration over the map. *)
Definition ListModels (s : ModelService) : list ModelInfo :=
  map (fun kv => Info (snd kv)) (map_to_list (models s)).

(** [GetModelStatus] *)
Definition GetModelStatus (s : ModelService) : ModelStatus := {|
  LoadedModels := Z.of_nat (size (models s));
  TotalModels := Z.of_nat (size (models s));
  Models := Health <$> models s
|}.

(** The health tier chosen at the end of [UpdateModelStats]. *)
Definition healthTier (errorRate : float64) : string :=
  if F64.gtb errorRate c_0_5 then "unhealthy"
  else if F64.gtb errorRate c_0_1 then "degraded"
  else "healthy".

(** The effect of [UpdateModelStats] on the model it finds. *)
Definition updateStats (now : Time) (processingTime : float64) (success : bool)
    (model : LoadedModel) : LoadedModel :=
  let predictions := wrap64 (MPredictions model + 1) in
  let hpredictions := wrap64 (HPredictions (Health model) + 1) in
  let totalTime := F64.add (TotalTime model) processingTime in
  let avgTime :=
    if success then F64.div totalTime (F64.of_int predictions)
    else AvgTime (Health model) in
  let errors := if success then Errors model else wrap64 (Errors model + 1) in
  let herrors :=
    if success then HErrors (Health model)
    else wrap64 (HErrors (Health model) + 1) in
  let errorRate := F64.div (F64.of_int errors) (F64.of_int predictions) in
  {| Info := Info model;
     Health := {| Status := healthTier errorRate;
                  HLastUsed := now;
                  HPredictions := hpredictions;
                  AvgTime := avgTime;
                  HErrors := herrors |};
     LastUsed := now;
     MPredictions := predictions;
     Errors := errors;
     TotalTime := totalTime |}.

(** [UpdateModelStats] *)
Definition UpdateModelStats (now : Time) (modelID : string)
    (processingTime : float64) (success : bool) (s : ModelService) : ModelService :=
  match models s !! modelID with
  | None => s
  | Some model =>
      {| config := config s;
         models := <[ modelID := updateStats now processingTime success model ]> (models s);
         defaultModel := defaultModel s |}
  end.

(** [IsModelHealthy] *)
Definition IsModelHealthy (s : ModelService) (modelID : string) : bool :=
  match models s !! modelID with
  | None => false
  | Some model => bool_decide (Status (Health model) = "healthy")
  end.

(** ** handlers.go *)

(** [APIHealthCheck]: the body sent with status 200. The loop marks the
    snapshot degraded as soon as it meets a model that is not healthy. *)
Definition APIHealthCheck (s : ModelService) : HealthCheck :=
  let modelStatus := GetModelStatus s in
  let degraded :=
    existsb (fun kv => negb (bool_decide (Status (snd kv) = "healthy")))
            (map_to_list (Models modelStatus)) in
  {| HCStatus := if degraded then "degraded" else "healthy";
     HCVersion := "1.0.0";
     HCServices :=
       <[ "model_service" := if degraded then "degraded" else "healthy" ]>
       (<[ "prediction_service" := "healthy" ]>
        {[ "image_service" := "healthy" ]});
     HCModelStatus := modelStatus |}.

(** ** image_service.go *)

(** An uploaded [multipart.File]: its bytes, and whether the operating
    system lets [Seek] and [Read] succeed on it. *)
Record UploadedFile := {
  fileData : list Byte.byte;
  seekFails : bool;
  readFails : bool
}.

(** The part of [multipart.FileHeader] the validation reads. *)
Record FileHeader := {
  hdrFilename : string;
  hdrSize : Z;
  hdrContentType : string
}.

Inductive ValidationError :=
  | ErrFileTooLarge (size limit : Z)
  | ErrUnsupportedType (contentType : string)
  | ErrSeek
  | ErrRead
  | ErrDetectedNotAllowed (detectedType : string).

(** [bytes.HasPrefix] and [bytes.Equal] *)
Fixpoint hasPrefix (s prefix : list Byte.byte) : bool :=
  match prefix, s with
  | [], _ => true
  | p :: prefix', c :: s' => Byte.eqb c p && hasPrefix s' prefix'
  | _ :: _, [] => false
  end.

Fixpoint bytesEqual (a b : list Byte.byte) : bool :=
  match a, b with
  | [], [] => true
  | x :: a', y :: b' => Byte.eqb x y && bytesEqual a' b'
  | _, _ => false
  end.

Definition magicJPEG : list Byte.byte := [Byte.xff; Byte.xd8; Byte.xff].
Definition magicPNG : list Byte.byte := [Byte.x89; Byte.x50; Byte.x4e; Byte.x47].
Definition magicRIFF : list Byte.byte := [Byte.x52; Byte.x49; Byte.x46; Byte.x46].
Definition magicWEBP : list Byte.byte := [Byte.x57; Byte.x45; Byte.x42; Byte.x50].

(** [detectMimeType] *)
Definition detectMimeType (data : list Byte.byte) : string :=
  if (length data <? 4)%nat then "application/octet-stream"
  else if hasPrefix data magicJPEG then "image/jpeg"
  else if hasPrefix data magicPNG then "image/png"
  else if (12 <=? length data)%nat && hasPrefix data magicRIFF
          && bytesEqual (take 4 (drop 8 data)) magicWEBP
  then "image/webp"
  else "application/octet-stream".

(** [isAllowedType] *)
Definition isAllowedType (cfg : Config) (contentType : string) : bool :=
  existsb (fun allowedType => bool_decide (contentType = allowedType))
          (AllowedTypes (Upload cfg)).

(** [file.Read(buffer)] on a buffer of [n] bytes, after [Seek(0, 0)]: the
    bytes read, [io.EOF] being no failure. *)
Definition fileRead (file : UploadedFile) (n : nat) : option (list Byte.byte) :=
  if readFails file then None else Some (take n (fileData file)).

(** [ValidateImage] *)
Definition ValidateImage (cfg : Config) (file : UploadedFile) (header : FileHeader)
  : outcome ValidationError unit :=
  if hdrSize header >? MaxFileSize (Upload cfg)
  then Err (ErrFileTooLarge (hdrSize header) (MaxFileSize (Upload cfg)))
  else
    let contentType := hdrContentType header in
    if negb (isAllowedType cfg contentType) then Err (ErrUnsupportedType contentType)
    else if seekFails file then Err ErrSeek
    else
      match fileRead file 512 with
      | None => Err ErrRead
      | Some buffer =>
          if seekFails file then Err ErrSeek
          else
            let detectedType := detectMimeType buffer in
            if negb (isAllowedType cfg detectedType)
            then Err (ErrDetectedNotAllowed detectedType)
            else Ok tt
      end.

Section Codecs.

(** Decoded images and the codecs of image/png, image/jpeg,
    golang.org/x/image/webp and disintegration/imaging. *)
Variable Image : Type.
Variables pngDecode jpegDecode webpDecode : list Byte.byte -> option Image.
Variable resizeImage : Image -> Z -> Z -> Image.
Variable convertToRGB : Image -> Image.
Variable jpegEncode : Image -> Z -> option (list Byte.byte).

(** [decodeImage]: PNG first, then JPEG, then WebP. *)
Definition decodeImage (data : list Byte.byte) : option (Image * string) :=
  match pngDecode data with
  | Some img => Some (img, "png")
  | None =>
      match jpegDecode data with
      | Some img => Some (img, "jpeg")
      | None =>
          match webpDecode data with
          | Some img => Some (img, "webp")
          | None => None
          end
      end
  end.

(** [preprocessForModel] *)
Definition preprocessForModel (img : Image) : option (list Byte.byte) :=
  jpegEncode (convertToRGB (resizeImage img 224 224)) 95.

End Codecs.

(** ** prediction_service.go *)

Record PredictionService := {
  modelService : ModelService;
  results : gmap string PredictionResult
}.

(** [NewPredictionService] *)
Definition NewPredictionService (ms : ModelService) : PredictionService := {|
  modelService := ms;
  results := ∅
|}.

Inductive PredictError :=
  | ErrGetModel (e : ModelError)
  | ErrDecode
  | ErrPreprocess
  | ErrInference.

Inductive ResultError :=
  | ErrResultNotFound (resultID : string).

(** What one call of [PredictImage] reads from its environment: the clock
    inside [UpdateModelStats], the nanoseconds [time.Since(startTime)]
    reports, the instant stored as [ProcessedAt], and the identifier
    [generateResultID] builds from [crypto/rand]. *)
Record CallEnv := {
  statsNow : Time;
  elapsedNs : Z;
  processedAt : Time;
  resultID : string
}.

(** The table of [getClassDescription]. *)
Definition descriptions : gmap string string := list_to_map [
  ("cat", "A small domestic feline mammal");
  ("dog", "A domestic canine companion animal");
  ("bird", "A feathered, winged, bipedal animal");
  ("car", "A four-wheeled motor vehicle");
  ("truck", "A large motor vehicle for transporting goods");
  ("airplane", "A powered flying vehicle with wings");
  ("boat", "A watercraft designed for travel on water");
  ("train", "A connected series of railway cars");
  ("bicycle", "A two-wheeled vehicle powered by pedaling");
  ("motorcycle", "A two-wheeled motor vehicle");
  ("person", "A human being");
  ("horse", "A large domesticated ungulate mammal");
  ("sheep", "A woolly ruminant mammal");
  ("cow", "A large domesticated bovine animal");
  ("elephant", "A large mammal with a trunk");
  ("bear", "A large omnivorous mammal");
  ("zebra", "A black and white striped equine");
  ("giraffe", "A tall African mammal with a long neck")
].

(** [getClassDescription] *)
Definition getClassDescription (className : string) : string :=
  match descriptions !! className with
  | Some desc => desc
  | None => "A " +:+ className +:+ " object or entity"
  end.

(** [normalizeProbabilities] *)
Definition normalizeProbabilities (predictions : list ClassificationResult)
  : list ClassificationResult :=
  let total := foldl (fun total pred => F64.add total (CRProbability pred))
                     F64.zero predictions in
  if F64.gtb total F64.zero
  then map (fun pred =>
              {| CRClassName := CRClassName pred; CRLabel := CRLabel pred;
                 CRDescription := CRDescription pred;
                 CRConfidence := CRConfidence pred;
                 CRProbability := F64.div (CRProbability pred) total |})
           predictions
  else predictions.

(** The comparison handed to [sort.Slice]. *)
Definition byConfidenceDesc (a b : ClassificationResult) : bool :=
  F64.gtb (CRConfidence a) (CRConfidence b).

Section Inference.

(** Go's [math.Exp], [math.Sin] and [sort.Slice]. *)
Variable mathExp : float64 -> float64.
Variable mathSin : float64 -> float64.
Variable sortSlice :
  (ClassificationResult -> ClassificationResult -> bool) ->
  list ClassificationResult -> list ClassificationResult.

(** [generateConfidence]; the products and the sum are rounded one by one. *)
Definition generateConfidence (seed index : Z) : float64 :=
  let n := Z.rem (wrap64 (wrap64 (seed * 31) + wrap64 (index * 17))) 1000 in
  let x := F64.div (F64.of_int n) c_1000 in
  let confidence :=
    F64.mul (mathExp (F64.mul (F64.opp x) c_3))
            (F64.add c_0_3 (F64.mul c_0_7 (mathSin (F64.mul x c_pi)))) in
  let confidence :=
    if F64.ltb confidence F64.zero then F64.opp confidence else confidence in
  if F64.gtb confidence F64.one then F64.one else confidence.

(** The loop of [performInference] over the classes, which stops at the
    tenth. *)
Fixpoint simulate (seed : Z) (i : nat) (classes : list string)
  : list ClassificationResult :=
  match classes with
  | [] => []
  | class :: rest =>
      if (10 <=? i)%nat then []
      else
        let confidence := generateConfidence seed (Z.of_nat i) in
        if F64.gtb confidence c_0_01
        then {| CRClassName := class; CRLabel := class;
                CRDescription := getClassDescription class;
                CRConfidence := confidence;
                CRProbability := confidence |}
             :: simulate seed (S i) rest
        else simulate seed (S i) rest
  end.

(** [performInference]; [None] is its error. *)
Definition performInference (imageData : list Byte.byte) (model : LoadedModel)
  : option (list ClassificationResult) :=
  let seed := Z.of_nat (length imageData) in
  let predictions := simulate seed 0 (Classes (Info model)) in
  let predictions := sortSlice byConfidenceDesc predictions in
  let predictions := normalizeProbabilities predictions in
  let predictions :=
    if (5 <? length predictions)%nat then take 5 predictions else predictions in
  if (length predictions =? 0)%nat then None else Some predictions.

Variable Image : Type.
Variables pngDecode jpegDecode webpDecode : list Byte.byte -> option Image.
Variable resizeImage : Image -> Z -> Z -> Image.
Variable convertToRGB : Image -> Image.
Variable jpegEncode : Image -> Z -> option (list Byte.byte).

(** [PredictImage] *)
Definition PredictImage (env : CallEnv) (s : PredictionService)
    (imageData : list Byte.byte) (metadata : ImageMetadata) (modelID : string)
  : PredictionService * outcome PredictError PredictionResult :=
  match GetModel (modelService s) modelID with
  | Panic => (s, Panic)
  | Err e => (s, Err (ErrGetModel e))
  | Ok model =>
      match decodeImage Image pngDecode jpegDecode webpDecode imageData with
      | None => (s, Err ErrDecode)
      | Some (img, _) =>
          match preprocessForModel Image resizeImage convertToRGB jpegEncode img with
          | None => (s, Err ErrPreprocess)
          | Some processedData =>
              match performInference processedData model with
              | None =>
                  ({| modelService :=
                        UpdateModelStats (statsNow env) (ID (Info model))
                                         F64.zero false (modelService s);
                      results := results s |},
                   Err ErrInference)
              | Some predictions =>
                  let processingTime := F64.div (F64.of_int (elapsedNs env)) c_1e6 in
                  let ms := UpdateModelStats (statsNow env) (ID (Info model))
                                             processingTime true (modelService s) in
                  let result := {| PRID := resultID env;
                                   Predictions := predictions;
                                   PRMetadata := metadata;
                                   ProcessedAt := processedAt env;
                                   ProcessTime := processingTime;
                                   PRModelInfo := Info model |} in
                  ({| modelService := ms;
                      results := <[ resultID env := result ]> (results s) |},
                   Ok result)
              end
          end
      end
  end.

End Inference.

(** [GetResult] *)
Definition GetResult (s : PredictionService) (resultID : string)
  : outcome ResultError PredictionResult :=
  match results s !! resultID with
  | None => Err (ErrResultNotFound resultID)
  | Some result => Ok result
  end.

(** [CleanupResults], run at instant [now]; [time.Duration] is an int64. *)
Definition CleanupResults (now : Time) (maxAge : Z) (s : PredictionService)
  : PredictionService :=
  let cutoff := now + wrap64 (- maxAge) in
  {| modelService := modelService s;
     results := filter (fun kv => ¬ (ProcessedAt (snd kv) < cutoff)) (results s) |}.

(** [GetResultsCount] *)
Definition GetResultsCount (s : PredictionService) : Z :=
  Z.of_nat (size (results s)).

(** ** Selection of the greatest element

    The exchange sort of [PostprocessPredictions] seen on lists: one pass of
    the inner loop moves the first greatest element of [x :: rest] to the
    front and leaves each displaced element where the greater one was. *)

Section Selection.

Context {A : Type}.
Variable gt : A -> A -> bool.

Fixpoint selectMax (x : A) (rest : list A) : A * list A :=
  match rest with
  | [] => (x, [])
  | y :: ys =>
      if gt y x
      then let '(m, ys') := selectMax y ys in (m, x :: ys')
      else let '(m, ys') := selectMax x ys in (m, y :: ys')
  end.

Fixpoint selectionSort (passes : nat) (l : list A) : list A :=
  match passes, l with
  | S passes', x :: rest =>
      let '(m, rest') := selectMax x rest in m :: selectionSort passes' rest'
  | _, _ => l
  end.

End Selection.

(** ** A small instance of the parameters

    Used to run the model on concrete inputs. The numeric functions follow
    the special cases of Go's math package and approximate the function
    elsewhere; the sort is a selection sort; an image is kept as its
    bytes, and a codec accepts the inputs that start with its magic
    number. *)

Module Sample.

(** An exponential: the special cases of [math.Exp] (NaN, infinities,
    zero) and, elsewhere, a Taylor polynomial of the argument divided by
    1024, squared ten times. *)
Fixpoint taylorExp (n : nat) (k : Z) (term acc x : float64) : float64 :=
  match n with
  | O => acc
  | S n' =>
      let term' := F64.div (F64.mul term x) (F64.of_int k) in
      taylorExp n' (k + 1) term' (F64.add acc term') x
  end.

Definition exp (x : float64) : float64 :=
  match x with
  | S754_nan => S754_nan
  | S754_infinity false => x
  | S754_infinity true => F64.zero
  | S754_zero _ => F64.one
  | S754_finite _ _ _ =>
      let y := F64.div x (F64.lit 1024 0) in
      let r := taylorExp 12 1 F64.one F64.one y in
      Nat.iter 10 (fun v => F64.mul v v) r
  end.

(** Taylor polynomial of the sine, [n] terms after the first. *)
Fixpoint taylorSin (n : nat) (k : Z) (term acc y2 : float64) : float64 :=
  match n with
  | O => acc
  | S n' =>
      let term' :=
        F64.opp (F64.div (F64.mul term y2)
                         (F64.of_int ((2 * k) * (2 * k + 1)))) in
      taylorSin n' (k + 1) term' (F64.add acc term') y2
  end.

Definition sin (x : float64) : float64 :=
  match x with
  | S754_nan => S754_nan
  | S754_infinity _ => S754_nan
  | S754_zero _ => x
  | S754_finite _ _ _ => taylorSin 16 1 x x (F64.mul x x)
  end.

Definition sortSlice {A} (less : A -> A -> bool) (l : list A) : list A :=
  selectionSort less (length l - 1) l.

Definition Image : Type := list Byte.byte.
Definition decodeWith (magic data : list Byte.byte) : option Image :=
  if hasPrefix data magic then Some data else None.
Definition pngDecode : list Byte.byte -> option Image := decodeWith magicPNG.
Definition jpegDecode : list Byte.byte -> option Image := decodeWith magicJPEG.
Definition webpDecode : list Byte.byte -> option Image := decodeWith magicRIFF.
Definition resizeImage (img : Image) (w h : Z) : Image := img.
Definition convertToRGB (img : Image) : Image := img.
Definition jpegEncode (img : Image) (quality : Z) : option (list Byte.byte) :=
  Some (magicJPEG ++ img).

(** A machine without a model directory. *)
Definition noModelDir : FileSystem := {|
  fsStat := fun _ => StatNotExist;
  fsReadDir := fun _ => None;
  fsReadFile := fun _ => None
|}.

(** A model directory that holds one plain file and no subdirectory. *)
Definition emptyModelDir : FileSystem := {|
  fsStat := fun _ => StatOk;
  fsReadDir := fun _ => Some [ {| entryName := "README.md"; entryIsDir := false |} ];
  fsReadFile := fun _ => None
|}.

Definition filepathJoin (dir name : string) : string := dir +:+ "/" +:+ name.
Definition jsonUnmarshal (data : list Byte.byte) : option ModelInfo := None.

Definition cfg : Config := {|
  Model := {| Path := "./models"; CfgVersion := "latest" |};
  Upload := defaultUploadConfig
|}.

Definition predictImage :=
  PredictImage exp sin sortSlice Image pngDecode jpegDecode webpDecode
               resizeImage convertToRGB jpegEncode.

End Sample.

(** ** Vocabulary of the properties *)

(** *** Order on floats *)

(** [a >= b] as Go evaluates it. *)
Definition SFgeb (a b : spec_float) : bool := SFleb b a.


(** The entries are in non-increasing order of confidence. *)
Definition sortedByConfidence (l : list ClassificationResult) : Prop :=
  Sorted (fun a b => SFgeb (CRConfidence a) (CRConfidence b) = true) l.

(** Entries of equal probability appear in ascending order of their class
    index. *)
Definition tiesInIndexOrder (l : list ClassificationPrediction) : Prop :=
  forall (i j : nat) a b,
    (i < j)%nat -> l !! i = Some a -> l !! j = Some b ->
    SFeqb (Probability a) (Probability b) = true ->
    (ClassIndex a < ClassIndex b)%nat.

(** *** Exact value of a float *)





(** What the proofs use of [math.Exp]: its value 1 at zero and its
    documented special case [Exp(NaN) = NaN]. *)
Record GoExp (mathExp : float64 -> float64) : Prop := {
  exp_zero : forall s, mathExp (S754_zero s) = F64.one;
  exp_nan : mathExp S754_nan = S754_nan
}.

(** [less] is a strict weak ordering of the elements of [l]. *)
Definition strictWeakOn {A} (less : A -> A -> bool) (l : list A) : Prop :=
  (forall a, In a l -> less a a = false) /\
  (forall a b c, In a l -> In b l -> In c l ->
     less a b = true -> less b c = true -> less a c = true) /\
  (forall a b c, In a l -> In b l -> In c l ->
     less a b = false -> less b c = false -> less a c = false).

(** What the proofs use of the documentation of [sort.Slice]: the result
    is a rearrangement of the slice, and it is ordered whenever [less] is a
    strict weak ordering of its elements. *)
Definition GoSortSlice {A}
    (sortSlice : (A -> A -> bool) -> list A -> list A) : Prop :=
  forall less l,
    Permutation (sortSlice less l) l /\
    (strictWeakOn less l -> Sorted (fun a b => less b a = false) (sortSlice less l)).

(** *** Sequences of recorded outcomes *)

(** One call of [UpdateModelStats]: the clock, the elapsed time and the
    outcome of the prediction. *)
Record StatsCall := {
  callNow : Time;
  callTime : float64;
  callSuccess : bool
}.

Definition recordOutcomes (modelID : string) (calls : list StatsCall)
    (s : ModelService) : ModelService :=
  foldl (fun s c => UpdateModelStats (callNow c) modelID (callTime c) (callSuccess c) s)
        s calls.

Definition failures (calls : list StatsCall) : Z :=
  Z.of_nat (length (filter (fun c => callSuccess c = false) calls)).

(** The error rate as [UpdateModelStats] computes it in binary64. *)
Definition errorRate (errors predictions : Z) : float64 :=
  F64.div (F64.of_int errors) (F64.of_int predictions).

(** The binary64 error rate falls on the same side of both thresholds as
    the exact ratio [k/n]. *)
Definition rateFaithful (k n : Z) : Prop :=
  F64.gtb (errorRate k n) c_0_5 = (n <? 2 * k) /\
  F64.gtb (errorRate k n) c_0_1 = (n <? 10 * k).

(** Inputs on which the model is run. *)
Module Inputs.

(** The registry of a machine without a model directory, started at
    instant 0. *)
Definition registry : ModelService :=
  NewModelService Sample.noModelDir Sample.filepathJoin Sample.jsonUnmarshal 0
                  Sample.cfg.

Definition dummy : LoadedModel :=
  freshModel (dummyInfo 0) 0.

(** A success, a failure, a success. *)
Definition calls : list StatsCall := [
  {| callNow := 1; callTime := F64.lit 120 0; callSuccess := true |};
  {| callNow := 2; callTime := F64.zero; callSuccess := false |};
  {| callNow := 3; callTime := F64.lit 95 0; callSuccess := true |}
].

Definition service : PredictionService := NewPredictionService registry.

Definition env : CallEnv := {|
  statsNow := 5;
  elapsedNs := 100000000;
  processedAt := 7;
  resultID := "9f86d081884c7d65"
|}.

Definition metadata : ImageMetadata := {|
  Filename := "photo.png";
  Size := 4;
  Width := 1;
  Height := 1;
  Format := "png";
  ContentType := "image/png";
  UploadedAt := 0
|}.

(** Bytes that start with the PNG magic number, and bytes that no codec
    decodes. *)
Definition pngBytes : list Byte.byte := magicPNG.

Definition tiedScores : list float32 := [F32.zero; F32.zero; F32.lit 1000 0].
Definition tiedNames : list string := ["cat"; "dog"; "bird"].
Definition orderedScores : list float32 := [F32.lit 2 0; F32.lit 1 0; F32.lit 1 0].
Definition noImage : list Byte.byte := [].

(** A four-byte upload declared as a PNG. *)
Definition pngFile : UploadedFile := {|
  fileData := magicPNG;
  seekFails := false;
  readFails := false
|}.

Definition pngHeader : FileHeader := {|
  hdrFilename := "photo.png";
  hdrSize := 4;
  hdrContentType := "image/png"
|}.

End Inputs.

(** The model directory is absent, or none of its entries is a
    subdirectory that [loadModel] finds. *)
Definition noLoadableModel (fs : FileSystem)
    (filepathJoin : string -> string -> string) (cfg : Config) : Prop :=
  fsStat fs (Path (Model cfg)) = StatNotExist \/
  exists entries,
    fsReadDir fs (Path (Model cfg)) = Some entries /\
    Forall (fun entry =>
              entryIsDir entry = false \/
              fsStat fs (filepathJoin (Path (Model cfg)) (entryName entry))
                = StatNotExist)
           entries.

(** *** The order of [SFcompare]

    A float that is not NaN is ranked by its class (negative infinity,
    negative, zero, positive, positive infinity), then by its exponent and
    its mantissa, both negated for a negative float; [SFcompare] compares
    the ranks lexicographically. *)
Definition SFrank (x : spec_float) : Z * Z * Z :=
  match x with
  | S754_nan => (0, 0, 0)
  | S754_zero _ => (0, 0, 0)
  | S754_infinity true => (-2, 0, 0)
  | S754_infinity false => (2, 0, 0)
  | S754_finite false m e => (1, e, Zpos m)
  | S754_finite true m e => (-1, - e, Zneg m)
  end.

Definition rankLt (a b : Z * Z * Z) : Prop :=
  let '(c1, e1, m1) := a in
  let '(c2, e2, m2) := b in
  c1 < c2 \/ (c1 = c2 /\ (e1 < e2 \/ (e1 = e2 /\ m1 < m2))).

(** *** Statements about the postprocessing *)

(** [results[a].Probability > results[b].Probability] *)
Definition gtProbability (a b : ClassificationPrediction) : bool :=
  F32.gtb (Probability a) (Probability b).

(** The value of [topK] after its default is applied. *)
Definition effectiveTopK (topK : Z) : nat :=
  Z.to_nat (if topK <=? 0 then 5 else topK).


(** The returned entries of equal probability are in ascending order of
    class index. *)
Definition tiesKeepIndexOrder (mathExp : float64 -> float64)
    (predictions : list float32) (classNames : list string) (topK : Z) : Prop :=
  exists out,
    PostprocessPredictions mathExp predictions classNames topK = Ok out /\
    tiesInIndexOrder out.





(** The exponential [applySoftmax] stores for the logit [val]. *)
Definition expTerm (mathExp : float64 -> float64) (maxVal val : float32) : float32 :=
  F32.of_float64 (fastExp mathExp (F64.of_float32 (F32.sub val maxVal))).

(** *** Rounding of a quotient

    [F] is a positive normal binary64 float whose mantissa, at the scale
    [T = 2^(eF - e)], is within half a unit of [(q * mn + r) / mn]. *)
Definition roundedWithin (q e mn r : Z) (F : spec_float) : Prop :=
  exists (mF : positive) (eF T : Z),
    F = S754_finite false mF eF /\
    2 ^ 52 <= Zpos mF < 2 ^ 53 /\
    ((T = 1 /\ eF = e) \/ (T = 2 /\ eF = e + 1) \/ (T = 4 /\ eF = e + 2)) /\
    2 * Z.abs (Zpos mF * T * mn - (q * mn + r)) <= mn * T.

(** ** model_service.go: reloading and lookups *)

Section Reload.

Variable fs : FileSystem.
Variable filepathJoin : string -> string -> string.
Variable jsonUnmarshal : list Byte.byte -> option ModelInfo.
Variable now : Time.

(** [ReloadModel]: the model is deleted first, then loaded again. *)
Definition ReloadModel (s : ModelService) (modelID : string)
  : ModelService * option ModelError :=
  let s := {| config := config s;
              models := delete modelID (models s);
              defaultModel := defaultModel s |} in
  match loadModel fs filepathJoin jsonUnmarshal now s modelID with
  | (s', Some _) => (s', Some (ErrReloadFailed modelID))
  | (s', None) => (s', None)
  end.

End Reload.

(** [GetModelInfo] *)
Definition GetModelInfo (s : ModelService) (modelID : string)
  : outcome ModelError ModelInfo :=
  match GetModel s modelID with
  | Ok model => Ok (Info model)
  | Err e => Err e
  | Panic => Panic
  end.

(** What the loop of [LoadModels] keeps, started on an empty registry. *)
Definition loadInvariant (acc : ModelService * Z) : Prop :=
  let '(s, loadedCount) := acc in
  0 <= loadedCount /\
  (loadedCount = 0 -> defaultModel s = "" /\ models s = ∅) /\
  (0 < loadedCount -> is_Some (models s !! defaultModel s)).

(** The model directory exists, as far as [os.Stat] tells, and
    [os.ReadDir] fails on it. *)
Definition modelDirUnreadable (fs : FileSystem) (cfg : Config) : Prop :=
  fsStat fs (Path (Model cfg)) <> StatNotExist /\
  fsReadDir fs (Path (Model cfg)) = None.

(** The counters of the health record repeat those of the model. *)
Definition healthMirrorsCounters (m : LoadedModel) : Prop :=
  HPredictions (Health m) = MPredictions m /\
  HErrors (Health m) = Errors m /\
  HLastUsed (Health m) = LastUsed m.

Definition registryMirrored (s : ModelService) : Prop :=
  forall id m, models s !! id = Some m -> healthMirrorsCounters m.

(** ** prediction_service.go: reading a result *)

(** [GetTopPrediction]; [None] is the nil pointer. *)
Definition GetTopPrediction (result : PredictionResult) : option ClassificationResult :=
  if (length (Predictions result) =? 0)%nat then None
  else Predictions result !! 0%nat.

(** [GetPredictionsByThreshold] *)
Definition GetPredictionsByThreshold (result : PredictionResult) (threshold : float64)
  : list ClassificationResult :=
  foldl (fun filtered pred =>
           if SFgeb (CRConfidence pred) threshold then filtered ++ [pred]
           else filtered)
        [] (Predictions result).

(** The entry [p] is what the simulation builds for a class at an index
    [j < 10] that satisfies [at_index]: it is named and labelled after the
    class, described by [getClassDescription], and its confidence is the
    one generated for [j], above 0.01. *)
Definition entryOfClass (mathExp mathSin : float64 -> float64) (seed : Z)
    (at_index : nat -> Prop) (p : ClassificationResult) : Prop :=
  exists j : nat,
    at_index j /\ (j < 10)%nat /\
    CRLabel p = CRClassName p /\
    CRDescription p = getClassDescription (CRClassName p) /\
    CRConfidence p = generateConfidence mathExp mathSin seed (Z.of_nat j) /\
    F64.gtb (CRConfidence p) c_0_01 = true.

Inductive ModelValidationError :=
  | ErrValidateGetModel (e : ModelError)
  | ErrNotHealthy (modelID : string)
  | ErrInvalidInputShape (modelID : string)
  | ErrNoClassLabels (modelID : string).

(** [ValidateModelForPrediction]: [GetModel] resolves the empty identifier
    to the default model, [IsModelHealthy] does not. *)
Definition ValidateModelForPrediction (s : PredictionService) (modelID : string)
  : outcome ModelValidationError unit :=
  match GetModel (modelService s) modelID with
  | Panic => Panic
  | Err e => Err (ErrValidateGetModel e)
  | Ok model =>
      if negb (IsModelHealthy (modelService s) modelID)
      then Err (ErrNotHealthy modelID)
      else if negb (length (InputShape (Info model)) =? 3)%nat
      then Err (ErrInvalidInputShape modelID)
      else if (length (Classes (Info model)) =? 0)%nat
      then Err (ErrNoClassLabels modelID)
      else Ok tt
  end.

(** ** internal/models: batches and error responses *)

Record ImageRequest := {
  reqID : string;
  reqData : list Byte.byte;
  reqFilename : string
}.

Record ErrorResponse := {
  Code : string;
  Message : string;
  Details : string
}.

Definition ErrorCodePredictionFailed : string := "PREDICTION_FAILED".

(** [NewErrorResponse] *)
Definition NewErrorResponse (code message details : string) : ErrorResponse :=
  {| Code := code; Message := message; Details := details |}.

Record BatchPredictionResponse := {
  Success : bool;
  BatchResults : gmap string PredictionResult;
  BatchErrors : gmap string ErrorResponse;
  BatchProcessTime : float64
}.

Section Batch.

Variable mathExp : float64 -> float64.
Variable mathSin : float64 -> float64.
Variable sortSlice :
  (ClassificationResult -> ClassificationResult -> bool) ->
  list ClassificationResult -> list ClassificationResult.
Variable Image : Type.
Variables pngDecode jpegDecode webpDecode : list Byte.byte -> option Image.
Variable resizeImage : Image -> Z -> Z -> Image.
Variable convertToRGB : Image -> Image.
Variable jpegEncode : Image -> Z -> option (list Byte.byte).

(** What the [i]-th iteration of the loop of [BatchPredict] reads from its
    environment: the clock for [UploadedAt], and what [PredictImage]
    reads. *)
Variable uploadedAt : nat -> Time.
Variable callEnv : nat -> CallEnv.
(** The text [err.Error()] of an error of [PredictImage]. *)
Variable errorText : PredictError -> string.

(** The loop of [BatchPredict] from its [i]-th iteration on. *)
Fixpoint batchLoop (i : nat) (requests : list ImageRequest) (modelID : string)
    (s : PredictionService) (response : BatchPredictionResponse)
  : PredictionService * outcome Empty_set BatchPredictionResponse :=
  match requests with
  | [] => (s, Ok response)
  | req :: rest =>
      let metadata := {| Filename := reqFilename req;
                         Size := Z.of_nat (length (reqData req));
                         Width := 0; Height := 0; Format := ""; ContentType := "";
                         UploadedAt := uploadedAt i |} in
      match PredictImage mathExp mathSin sortSlice Image pngDecode jpegDecode
                         webpDecode resizeImage convertToRGB jpegEncode
                         (callEnv i) s (reqData req) metadata modelID with
      | (s', Panic) => (s', Panic)
      | (s', Err e) =>
          batchLoop (S i) rest modelID s'
            {| Success := Success response;
               BatchResults := BatchResults response;
               BatchErrors :=
                 <[ reqID req := NewErrorResponse ErrorCodePredictionFailed
                                                  "Prediction failed" (errorText e) ]>
                 (BatchErrors response);
               BatchProcessTime := BatchProcessTime response |}
      | (s', Ok result) =>
          batchLoop (S i) rest modelID s'
            {| Success := Success response;
               BatchResults := <[ reqID req := result ]> (BatchResults response);
               BatchErrors := BatchErrors response;
               BatchProcessTime := BatchProcessTime response |}
      end
  end.

(** [BatchPredict]; [elapsedNs] is what [time.Since(startTime)] reports at
    the end. The error it returns is always nil. *)
Definition BatchPredict (elapsedNs : Z) (s : PredictionService)
    (requests : list ImageRequest) (modelID : string)
  : PredictionService * outcome Empty_set BatchPredictionResponse :=
  let response := {| Success := false; BatchResults := ∅; BatchErrors := ∅;
                     BatchProcessTime := F64.zero |} in
  match batchLoop 0 requests modelID s response with
  | (s', Ok response) =>
      (s', Ok {| Success := bool_decide (size (BatchErrors response) = 0%nat);
                 BatchResults := BatchResults response;
                 BatchErrors := BatchErrors response;
                 BatchProcessTime := F64.div (F64.of_int elapsedNs) c_1e6 |})
  | other => other
  end.

End Batch.

(** ** handlers: the home page *)

Record ModelStats := {
  ModelsLoaded : string;
  TotalPredictions : string;
  AverageLatency : string;
  SystemHealth : string
}.

(** [Index]: the statistics handed to the template; [None] is a handler
    without model service. *)
Definition Index (modelService : option ModelService) : ModelStats :=
  match modelService with
  | None =>
      {| ModelsLoaded := "2"; TotalPredictions := "0"; AverageLatency := "0";
         SystemHealth := "healthy" |}
  | Some ms =>
      let modelStatus := GetModelStatus ms in
      {| ModelsLoaded := pretty (size (Models modelStatus));
         TotalPredictions := "0";
         AverageLatency := "0";
         SystemHealth :=
           if (size (Models modelStatus) =? 0)%nat then "degraded" else "healthy" |}
  end.

(** * Properties *)

(** ** Machine integers *)

Lemma wrap64_id (z : Z) : in_int64 z -> wrap64 z = z.
Proof.
  unfold in_int64, int64_min, int64_max, wrap64. intros H.
  rewrite Z.mod_small; lia.
Qed.

(** ** Totality of the postprocessing *)

Section Postprocess.

Variable mathExp : float64 -> float64.

Lemma softmaxExp_length (maxVal : float32) (logits : list float32) :
  length (fst (softmaxExp mathExp maxVal logits)) = length logits.
Proof.
  unfold softmaxExp.
  enough (H : forall acc sum,
             length (fst (foldl (fun '(expVals, expSum) val =>
               let e := F32.of_float64 (fastExp mathExp (F64.of_float32 (F32.sub val maxVal))) in
               (expVals ++ [e], F32.add expSum e)) (acc, sum) logits))
             = (length acc + length logits)%nat) by apply H.
  induction logits as [|v l IH]; intros acc sum; simpl.
  - lia.
  - rewrite IH, length_app. simpl. lia.
Qed.

Lemma applySoftmax_cons (v : float32) (l : list float32) :
  exists probs, applySoftmax mathExp (v :: l) = Some probs /\
                length probs = S (length l).
Proof.
  unfold applySoftmax. change ((v :: l) !! 0%nat) with (Some v). cbv beta iota zeta.
  destruct (softmaxExp mathExp (softmaxMax v (v :: l)) (v :: l)) as [expVals expSum] eqn:E.
  eexists. split; [reflexivity|].
  rewrite length_map.
  pose proof (softmaxExp_length (softmaxMax v (v :: l)) (v :: l)) as H.
  rewrite E in H. exact H.
Qed.

(** C9: on two empty lists the length check passes and [applySoftmax]
    reads [logits[0]] of an empty slice: the call panics. *)
Theorem postprocess_empty_panics (topK : Z) :
  PostprocessPredictions mathExp [] [] topK = Panic.
Proof. reflexivity. Qed.

Lemma postprocess_nonempty_returns (predictions : list float32)
    (classNames : list string) (topK : Z) :
  length predictions = length classNames ->
  predictions <> [] ->
  exists out, PostprocessPredictions mathExp predictions classNames topK = Ok out.
Proof.
  intros Hlen Hne. unfold PostprocessPredictions.
  rewrite Hlen, Nat.eqb_refl. simpl.
  destruct predictions as [|v l]; [congruence|].
  destruct (applySoftmax_cons v l) as (probs & -> & _).
  eexists; reflexivity.
Qed.

End Postprocess.

(** ** Validation of an upload *)

(** C6: [ValidateImage] rejects a declared size above the maximum, a
    declared content type outside the allow-list and a sniffed type outside
    the allow-list (whatever the declared type is), and accepts a readable
    file that passes the three checks; the default maximum is 10 MiB and the
    sniffed type follows the magic numbers of JPEG, PNG and WebP. *)
Theorem validate_image_checks (cfg : Config) (file : UploadedFile) (header : FileHeader) :
  (hdrSize header > MaxFileSize (Upload cfg) ->
     ValidateImage cfg file header =
       Err (ErrFileTooLarge (hdrSize header) (MaxFileSize (Upload cfg)))) /\
  (isAllowedType cfg (hdrContentType header) = false ->
     is_err (ValidateImage cfg file header) = true) /\
  (isAllowedType cfg (detectMimeType (take 512 (fileData file))) = false ->
     is_err (ValidateImage cfg file header) = true) /\
  (hdrSize header <= MaxFileSize (Upload cfg) ->
   isAllowedType cfg (hdrContentType header) = true ->
   isAllowedType cfg (detectMimeType (take 512 (fileData file))) = true ->
   seekFails file = false -> readFails file = false ->
     ValidateImage cfg file header = Ok tt) /\
  MaxFileSize defaultUploadConfig = 10 * 1024 * 1024 /\
  AllowedTypes defaultUploadConfig = ["image/jpeg"; "image/png"; "image/webp"] /\
  (forall b rest, detectMimeType (magicJPEG ++ b :: rest) = "image/jpeg") /\
  (forall rest, detectMimeType (magicPNG ++ rest) = "image/png") /\
  (forall b1 b2 b3 b4 rest,
     detectMimeType (magicRIFF ++ [b1; b2; b3; b4] ++ magicWEBP ++ rest) = "image/webp").
Proof.
  unfold ValidateImage, fileRead.
  refine (conj _ (conj _ (conj _ (conj _ (conj _ (conj _ (conj _ (conj _ _)))))))).
  - intros H. destruct (Z.gtb_spec (hdrSize header) (MaxFileSize (Upload cfg))); [reflexivity|lia].
  - intros H. rewrite H. simpl. destruct (_ >? _); reflexivity.
  - intros H.
    destruct (_ >? _); [reflexivity|].
    destruct (negb (isAllowedType cfg (hdrContentType header))); [reflexivity|].
    destruct (seekFails file); [reflexivity|].
    destruct (readFails file); [reflexivity|].
    rewrite H. reflexivity.
  - intros Hs Hd Hn Hseek Hread.
    destruct (Z.gtb_spec (hdrSize header) (MaxFileSize (Upload cfg))); [lia|].
    rewrite Hd, Hseek, Hread, Hn. reflexivity.
  - reflexivity.
  - reflexivity.
  - intros b rest. reflexivity.
  - intros rest. destruct rest; reflexivity.
  - intros b1 b2 b3 b4 rest. reflexivity.
Qed.

Lemma validate_image_witness :
  ValidateImage Sample.cfg Inputs.pngFile Inputs.pngHeader = Ok tt.
Proof.
  apply (validate_image_checks Sample.cfg Inputs.pngFile Inputs.pngHeader).
  - simpl. lia.
  - reflexivity.
  - reflexivity.
  - reflexivity.
  - reflexivity.
Defined.

(** ** The model registry *)

Lemma updateStats_counts (now : Time) (t : float64) (success : bool) (m : LoadedModel) :
  0 <= MPredictions m < int64_max ->
  0 <= Errors m <= MPredictions m ->
  let m' := updateStats now t success m in
  MPredictions m' = MPredictions m + 1 /\
  Errors m' = Errors m + (if success then 0 else 1) /\
  0 <= Errors m' <= MPredictions m' /\
  Info m' = Info m /\
  TotalTime m' = F64.add (TotalTime m) t /\
  Status (Health m') = healthTier (errorRate (Errors m') (MPredictions m')) /\
  (success = true ->
     AvgTime (Health m') = F64.div (TotalTime m') (F64.of_int (MPredictions m'))).
Proof.
  intros Hp He. unfold updateStats. cbn [MPredictions Errors Info TotalTime Health Status AvgTime].
  assert (Hw : wrap64 (MPredictions m + 1) = MPredictions m + 1).
  { apply wrap64_id. unfold in_int64, int64_min, int64_max in *. lia. }
  assert (Hw' : wrap64 (Errors m + 1) = Errors m + 1).
  { apply wrap64_id. unfold in_int64, int64_min, int64_max in *. lia. }
  rewrite Hw. destruct success; rewrite ?Hw'; repeat split; try lia; try reflexivity; try congruence.
Qed.

Lemma healthTier_cases (k n : Z) :
  0 <= k ->
  rateFaithful k n ->
  (healthTier (errorRate k n) = "unhealthy" <-> n < 2 * k) /\
  (healthTier (errorRate k n) = "degraded" <-> 2 * k <= n < 10 * k) /\
  (healthTier (errorRate k n) = "healthy" <-> 10 * k <= n).
Proof.
  intros Hk [H5 H1]. unfold healthTier. rewrite H5, H1.
  destruct (Z.ltb_spec n (2 * k)); destruct (Z.ltb_spec n (10 * k));
    (split; [|split]); split; intros; try lia; try congruence; try discriminate.
Qed.

Lemma failures_cons (c : StatsCall) (calls : list StatsCall) :
  failures (c :: calls) = (if callSuccess c then 0 else 1) + failures calls.
Proof.
  unfold failures. rewrite filter_cons.
  destruct (callSuccess c); simpl.
  - destruct (decide (true = false)); [discriminate|]. lia.
  - destruct (decide (false = false)); [|congruence]. simpl length. lia.
Qed.

Lemma UpdateModelStats_lookup (now : Time) (modelID : string) (t : float64)
    (success : bool) (s : ModelService) (m : LoadedModel) :
  models s !! modelID = Some m ->
  models (UpdateModelStats now modelID t success s) !! modelID
    = Some (updateStats now t success m).
Proof.
  intros H. unfold UpdateModelStats. rewrite H. simpl. apply lookup_insert_eq.
Qed.

Lemma recordOutcomes_counts (modelID : string) (calls : list StatsCall) :
  forall (s : ModelService) (m : LoadedModel),
  models s !! modelID = Some m ->
  0 <= Errors m <= MPredictions m ->
  MPredictions m + Z.of_nat (length calls) <= int64_max ->
  exists m',
    models (recordOutcomes modelID calls s) !! modelID = Some m' /\
    MPredictions m' = MPredictions m + Z.of_nat (length calls) /\
    Errors m' = Errors m + failures calls /\
    0 <= Errors m' <= MPredictions m' /\
    (calls <> [] ->
       Status (Health m') = healthTier (errorRate (Errors m') (MPredictions m'))) /\
    (forall c, last calls = Some c -> callSuccess c = true ->
       AvgTime (Health m') = F64.div (TotalTime m') (F64.of_int (MPredictions m'))).
Proof.
  induction calls as [|c calls IH]; intros s m Hm He Hp.
  - exists m. simpl. unfold failures. simpl.
    repeat split; try lia; try assumption; try congruence; try discriminate.
  - simpl length in Hp.
    pose proof (updateStats_counts (callNow c) (callTime c) (callSuccess c) m) as Hu.
    cbv zeta in Hu.
    destruct Hu as (Hu1 & Hu2 & Hu3 & _ & _ & Hu6 & Hu7); [lia | lia |].
    set (m1 := updateStats (callNow c) (callTime c) (callSuccess c) m) in *.
    destruct (IH (UpdateModelStats (callNow c) modelID (callTime c) (callSuccess c) s) m1)
      as (m' & Hl & Hc & Hf & Hr & Hst & Havg).
    + apply UpdateModelStats_lookup. exact Hm.
    + exact Hu3.
    + lia.
    + exists m'. rewrite failures_cons. simpl length.
      split; [exact Hl|]. split; [lia|]. split; [lia|]. split; [exact Hr|].
      split.
      * intros _. destruct calls as [|c' calls'].
        -- simpl in Hl. rewrite (UpdateModelStats_lookup _ _ _ _ _ _ Hm) in Hl.
           injection Hl as <-. exact Hu6.
        -- apply Hst. discriminate.
      * intros c0 Hlast Hs. destruct calls as [|c' calls'].
        -- simpl in Hlast. injection Hlast as <-.
           simpl in Hl. rewrite (UpdateModelStats_lookup _ _ _ _ _ _ Hm) in Hl.
           injection Hl as <-. apply Hu7. exact Hs.
        -- apply (Havg c0); [|exact Hs]. exact Hlast.
Qed.


(** ** The placeholder model *)

Section Placeholder.

Variable fs : FileSystem.
Variable filepathJoin : string -> string -> string.
Variable jsonUnmarshal : list Byte.byte -> option ModelInfo.
Variable now : Time.

Lemma loadEntry_skips (s : ModelService) (entry : DirEntry) :
  entryIsDir entry = false \/
  fsStat fs (filepathJoin (Path (Model (config s))) (entryName entry)) = StatNotExist ->
  loadEntry fs filepathJoin jsonUnmarshal now (s, 0) entry = (s, 0).
Proof.
  intros [H|H]; unfold loadEntry.
  - rewrite H. reflexivity.
  - destruct (entryIsDir entry); [|reflexivity]. simpl.
    unfold loadModel. rewrite H. reflexivity.
Qed.

Lemma loadEntries_skip (s : ModelService) (entries : list DirEntry) :
  Forall (fun entry =>
            entryIsDir entry = false \/
            fsStat fs (filepathJoin (Path (Model (config s))) (entryName entry))
              = StatNotExist) entries ->
  foldl (loadEntry fs filepathJoin jsonUnmarshal now) (s, 0) entries = (s, 0).
Proof.
  induction 1 as [|entry entries H _ IH]; [reflexivity|].
  cbn [foldl]. rewrite (loadEntry_skips s entry H). exact IH.
Qed.

Lemma LoadModels_placeholder (cfg : Config) :
  noLoadableModel fs filepathJoin cfg ->
  NewModelService fs filepathJoin jsonUnmarshal now cfg
    = createDummyModel now (emptyModelService cfg).
Proof.
  intros H. unfold NewModelService, LoadModels. simpl.
  destruct H as [H|(entries & Hd & Hall)].
  - rewrite H. reflexivity.
  - destruct (fsStat fs (Path (Model cfg))); try reflexivity;
      rewrite Hd, (loadEntries_skip (emptyModelService cfg) entries Hall);
      reflexivity.
Qed.

(** C3 (amended): when the model directory is absent or holds no loadable
    subdirectory, the registry holds exactly the placeholder model "dummy",
    which is the default and the only model [ListModels] returns; the
    placeholder is "healthy", and so is the aggregate status of the health
    snapshot, which turns "degraded" only when some model is not healthy. *)
Theorem placeholder_model_when_nothing_loads (cfg : Config) :
  noLoadableModel fs filepathJoin cfg ->
  let s := NewModelService fs filepathJoin jsonUnmarshal now cfg in
  let dummy := freshModel (dummyInfo now) now in
  models s = {[ "dummy" := dummy ]} /\
  defaultModel s = "dummy" /\
  GetDefaultModel s = Ok dummy /\
  ListModels s = [Info dummy] /\
  ID (Info dummy) = "dummy" /\
  Status (Health dummy) = "healthy" /\
  HCStatus (APIHealthCheck s) = "healthy".
Proof.
  intros H. cbv zeta. rewrite (LoadModels_placeholder cfg H).
  unfold createDummyModel, emptyModelService. simpl models. simpl defaultModel.
  rewrite insert_empty.
  split; [reflexivity|]. split; [reflexivity|].
  split.
  { unfold GetDefaultModel, GetModel. simpl.
    rewrite lookup_singleton_eq. reflexivity. }
  split.
  { unfold ListModels. simpl. rewrite map_to_list_singleton. reflexivity. }
  split; [reflexivity|]. split; [reflexivity|].
  unfold APIHealthCheck, GetModelStatus. simpl.
  rewrite map_fmap_singleton, map_to_list_singleton. reflexivity.
Qed.

End Placeholder.

Lemma placeholder_model_witness :
  noLoadableModel Sample.emptyModelDir Sample.filepathJoin Sample.cfg /\
  ListModels (NewModelService Sample.emptyModelDir Sample.filepathJoin
                              Sample.jsonUnmarshal 0 Sample.cfg)
    = [dummyInfo 0].
Proof.
  assert (H : noLoadableModel Sample.emptyModelDir Sample.filepathJoin Sample.cfg).
  { right. eexists. split; [reflexivity|].
    constructor; [left; reflexivity|constructor]. }
  split; [exact H|].
  apply (placeholder_model_when_nothing_loads Sample.emptyModelDir Sample.filepathJoin
           Sample.jsonUnmarshal 0 Sample.cfg H).
Defined.

(** C3, as stated, fails on a machine without a model directory: the only
    model is the healthy placeholder and the snapshot says "healthy". *)
Lemma placeholder_snapshot_not_degraded :
  map ID (ListModels Inputs.registry) = ["dummy"] /\
  HCStatus (APIHealthCheck Inputs.registry) <> "degraded".
Proof.
  split; [reflexivity|]. vm_compute. discriminate.
Qed.

(** ** Predictions and the result store *)

Section Prediction.

Variable mathExp : float64 -> float64.
Variable mathSin : float64 -> float64.
Variable sortSlice :
  (ClassificationResult -> ClassificationResult -> bool) ->
  list ClassificationResult -> list ClassificationResult.
Variable Image : Type.
Variables pngDecode jpegDecode webpDecode : list Byte.byte -> option Image.
Variable resizeImage : Image -> Z -> Z -> Image.
Variable convertToRGB : Image -> Image.
Variable jpegEncode : Image -> Z -> option (list Byte.byte).

Local Abbreviation predict :=
  (PredictImage mathExp mathSin sortSlice Image pngDecode jpegDecode webpDecode
                resizeImage convertToRGB jpegEncode).
Local Abbreviation inference := (performInference mathExp mathSin sortSlice).

(** The three ways [PredictImage] ends. *)
Lemma PredictImage_cases (env : CallEnv) (s : PredictionService)
    (imageData : list Byte.byte) (metadata : ImageMetadata) (modelID : string) :
  (exists e, predict env s imageData metadata modelID = (s, Err e) /\
             e <> ErrInference) \/
  (exists model processedData,
     GetModel (modelService s) modelID = Ok model /\
     inference processedData model = None /\
     predict env s imageData metadata modelID =
       ({| modelService :=
             UpdateModelStats (statsNow env) (ID (Info model)) F64.zero false
                              (modelService s);
           results := results s |}, Err ErrInference)) \/
  (exists model processedData predictions,
     GetModel (modelService s) modelID = Ok model /\
     inference processedData model = Some predictions /\
     let processingTime := F64.div (F64.of_int (elapsedNs env)) c_1e6 in
     let result := {| PRID := resultID env; Predictions := predictions;
                      PRMetadata := metadata; ProcessedAt := processedAt env;
                      ProcessTime := processingTime; PRModelInfo := Info model |} in
     predict env s imageData metadata modelID =
       ({| modelService :=
             UpdateModelStats (statsNow env) (ID (Info model)) processingTime true
                              (modelService s);
           results := <[ resultID env := result ]> (results s) |}, Ok result)).
Proof.
  unfold PredictImage.
  destruct (GetModel (modelService s) modelID) as [model|e|] eqn:Hm.
  - destruct (decodeImage _ _ _ _ imageData) as [[img fmt]|].
    + destruct (preprocessForModel _ _ _ _ img) as [processedData|].
      * destruct (inference processedData model) as [predictions|] eqn:Hi.
        -- right. right. exists model, processedData, predictions. auto.
        -- right. left. exists model, processedData. auto.
      * left. exists ErrPreprocess. split; [reflexivity|discriminate].
    + left. exists ErrDecode. split; [reflexivity|discriminate].
  - left. exists (ErrGetModel e). split; [reflexivity|discriminate].
  - unfold GetModel in Hm. destruct (models _ !! _); discriminate.
Qed.

(** C7 (amended): a call that returns an error leaves the result store
    unchanged; a failure of the inference step is recorded with
    [success = false] under the model's own identifier, so that the error
    count of the model registered under that identifier grows by one, while
    a failure to find the model, to decode or to preprocess the image
    changes nothing at all; a successful call stores its result under the
    identifier it generated, one more entry when that identifier is new. *)
Theorem predict_image_store_and_counters (env : CallEnv) (s : PredictionService)
    (imageData : list Byte.byte) (metadata : ImageMetadata) (modelID : string) :
  let s' := fst (predict env s imageData metadata modelID) in
  match snd (predict env s imageData metadata modelID) with
  | Ok result =>
      PRID result = resultID env /\
      results s' = <[ resultID env := result ]> (results s) /\
      (results s !! resultID env = None -> size (results s') = S (size (results s))) /\
      exists model,
        GetModel (modelService s) modelID = Ok model /\
        modelService s' =
          UpdateModelStats (statsNow env) (ID (Info model)) (ProcessTime result) true
                           (modelService s)
  | Err ErrInference =>
      results s' = results s /\
      exists model,
        GetModel (modelService s) modelID = Ok model /\
        modelService s' =
          UpdateModelStats (statsNow env) (ID (Info model)) F64.zero false
                           (modelService s) /\
        forall m0, models (modelService s) !! ID (Info model) = Some m0 ->
          exists m1, models (modelService s') !! ID (Info model) = Some m1 /\
                     Errors m1 = wrap64 (Errors m0 + 1) /\
                     MPredictions m1 = wrap64 (MPredictions m0 + 1)
  | Err _ => s' = s
  | Panic => False
  end.
Proof.
  cbv zeta.
  destruct (PredictImage_cases env s imageData metadata modelID)
    as [(e & -> & Hne) | [(model & pd & Hm & Hi & ->) | (model & pd & preds & Hm & Hi & ->)]];
    cbn [fst snd].
  - destruct e; try reflexivity. congruence.
  - cbn [results modelService]. split; [reflexivity|].
    exists model. split; [exact Hm|]. split; [reflexivity|].
    intros m0 H0. rewrite (UpdateModelStats_lookup _ _ _ _ _ _ H0).
    eexists. split; [reflexivity|]. split; reflexivity.
  - cbn [results modelService PRID ProcessTime].
    split; [reflexivity|]. split; [reflexivity|].
    split; [intros Hnew; apply map_size_insert_None; exact Hnew|].
    exists model. split; [exact Hm|reflexivity].
Qed.

(** C8: a result is read back under its identifier right after
    [PredictImage] stored it; [CleanupResults] removes exactly the results
    processed before [now - maxAge], so that such a result is then reported
    as not found and the others are read back unchanged. *)
Theorem result_store_round_trip (env : CallEnv) (s s' : PredictionService)
    (imageData : list Byte.byte) (metadata : ImageMetadata) (modelID : string)
    (result : PredictionResult) (now maxAge : Z) :
  predict env s imageData metadata modelID = (s', Ok result) ->
  int64_min < maxAge <= int64_max ->
  GetResult s' (PRID result) = Ok result /\
  (forall id,
     GetResult (CleanupResults now maxAge s') id =
       match GetResult s' id with
       | Ok r => if ProcessedAt r <? now - maxAge
                 then Err (ErrResultNotFound id) else Ok r
       | other => other
       end) /\
  (ProcessedAt result < now - maxAge ->
     GetResult (CleanupResults now maxAge s') (PRID result)
       = Err (ErrResultNotFound (PRID result))).
Proof.
  intros Hp Hage.
  assert (Hget : GetResult s' (PRID result) = Ok result).
  { destruct (PredictImage_cases env s imageData metadata modelID)
      as [(e & He & _) | [(model & pd & _ & _ & He) | (model & pd & preds & _ & _ & He)]];
      rewrite He in Hp; try discriminate.
    injection Hp as <- <-. unfold GetResult. cbn [results PRID].
    rewrite lookup_insert_eq. reflexivity. }
  assert (Hw : wrap64 (- maxAge) = - maxAge).
  { apply wrap64_id. unfold in_int64, int64_min, int64_max in *. lia. }
  assert (Hall : forall id,
     GetResult (CleanupResults now maxAge s') id =
       match GetResult s' id with
       | Ok r => if ProcessedAt r <? now - maxAge
                 then Err (ErrResultNotFound id) else Ok r
       | other => other
       end).
  { intros id. unfold GetResult, CleanupResults. cbn [results]. rewrite Hw.
    destruct (results s' !! id) as [r|] eqn:Hr.
    - destruct (Z.ltb_spec (ProcessedAt r) (now - maxAge)) as [Hold|Hnew].
      + rewrite (proj2 (map_lookup_filter_None _ _ _)); [reflexivity|].
        right. intros x Hx Hkeep. rewrite Hr in Hx. injection Hx as <-.
        cbn in Hkeep. lia.
      + rewrite (map_lookup_filter_Some_2 _ _ _ r Hr); [reflexivity|].
        cbn. lia.
    - rewrite (proj2 (map_lookup_filter_None _ _ _)); [reflexivity|].
      left. exact Hr. }
  split; [exact Hget|]. split; [exact Hall|].
  intros Hold. rewrite Hall, Hget.
  destruct (Z.ltb_spec (ProcessedAt result) (now - maxAge)); [reflexivity|lia].
Qed.

End Prediction.

Lemma result_store_witness :
  exists s' result,
    Sample.predictImage Inputs.env Inputs.service Inputs.pngBytes Inputs.metadata ""
      = (s', Ok result) /\
    GetResult s' (PRID result) = Ok result /\
    GetResult (CleanupResults 100 50 s') (PRID result)
      = Err (ErrResultNotFound (PRID result)).
Proof.
  eassert (Hp : Sample.predictImage Inputs.env Inputs.service Inputs.pngBytes
                  Inputs.metadata "" = (_, Ok _)).
  { vm_compute. reflexivity. }
  eexists. eexists. split; [exact Hp|].
  destruct (result_store_round_trip _ _ _ _ _ _ _ _ _ _ _ _ _ _ _ _ _ 100 50 Hp)
    as (Hget & _ & Hold).
  - unfold int64_min, int64_max. lia.
  - split; [exact Hget|]. apply Hold. simpl. lia.
Defined.

(** C7, as stated, fails on bytes that no codec decodes: the call returns
    an error, and the error count of the model it resolved is still 0. *)
Lemma failed_decode_is_not_counted :
  let out := Sample.predictImage Inputs.env Inputs.service Inputs.noImage
                                 Inputs.metadata "" in
  snd out = Err ErrDecode /\
  GetModel (modelService Inputs.service) "" = Ok Inputs.dummy /\
  Errors Inputs.dummy = 0 /\
  Errors <$> (models (modelService (fst out)) !! "dummy") = Some 0.
Proof.
  vm_compute. repeat split; reflexivity.
Qed.

(** ** The order on floats *)

Lemma Pos_compare_cont_Eq (p q : positive) :
  Pos.compare_cont Eq p q = (Zpos p ?= Zpos q).
Proof. reflexivity. Qed.

Lemma SFltb_rank (x y : spec_float) :
  is_nan x = false -> is_nan y = false ->
  (SFltb x y = true <-> rankLt (SFrank x) (SFrank y)).
Proof.
  intros Hx Hy. unfold SFltb, SFcompare.
  destruct x as [sx|sx| |sx mx ex]; try discriminate;
  destruct y as [sy|sy| |sy my ey]; try discriminate;
  try destruct sx; try destruct sy; cbn [SFrank rankLt];
  rewrite ?Pos_compare_cont_Eq;
  try (split; [discriminate | lia]);
  try (split; [lia | reflexivity]);
  try (split; [intros _; lia | reflexivity]).
  - destruct (Z.compare_spec ex ey); destruct (Z.compare_spec (Z.pos mx) (Z.pos my));
      cbn [CompOpp]; split; intros; try lia; try discriminate; try reflexivity.
  - destruct (Z.compare_spec ex ey); destruct (Z.compare_spec (Z.pos mx) (Z.pos my));
      cbn [CompOpp]; split; intros; try lia; try discriminate; try reflexivity.
Qed.

Lemma SFltb_not_nan (x y : spec_float) :
  SFltb x y = true -> is_nan x = false /\ is_nan y = false.
Proof.
  unfold SFltb, SFcompare.
  destruct x as [sx|sx| |sx mx ex]; destruct y as [sy|sy| |sy my ey];
    try discriminate; auto.
Qed.

Lemma SFltb_irrefl (x : spec_float) : SFltb x x = false.
Proof.
  destruct (SFltb x x) eqn:E; [|reflexivity].
  destruct (SFltb_not_nan _ _ E) as [Hx _].
  apply (SFltb_rank x x Hx Hx) in E.
  destruct (SFrank x) as [[c e] m]. cbn in E. lia.
Qed.

Lemma SFltb_trans (x y z : spec_float) :
  SFltb x y = true -> SFltb y z = true -> SFltb x z = true.
Proof.
  intros Hxy Hyz.
  destruct (SFltb_not_nan _ _ Hxy) as [Hx Hy].
  destruct (SFltb_not_nan _ _ Hyz) as [_ Hz].
  apply (SFltb_rank _ _ Hx Hy) in Hxy. apply (SFltb_rank _ _ Hy Hz) in Hyz.
  apply (SFltb_rank _ _ Hx Hz).
  destruct (SFrank x) as [[c1 e1] m1], (SFrank y) as [[c2 e2] m2],
    (SFrank z) as [[c3 e3] m3]. cbn in *. lia.
Qed.

Lemma SFltb_negtrans (x y z : spec_float) :
  is_nan x = false -> is_nan y = false -> is_nan z = false ->
  SFltb x y = false -> SFltb y z = false -> SFltb x z = false.
Proof.
  intros Hx Hy Hz Hxy Hyz.
  destruct (SFltb x z) eqn:Hxz; [|reflexivity].
  apply (SFltb_rank _ _ Hx Hz) in Hxz.
  assert (H1 : ~ rankLt (SFrank x) (SFrank y)).
  { intros H. apply (SFltb_rank _ _ Hx Hy) in H. congruence. }
  assert (H2 : ~ rankLt (SFrank y) (SFrank z)).
  { intros H. apply (SFltb_rank _ _ Hy Hz) in H. congruence. }
  destruct (SFrank x) as [[c1 e1] m1], (SFrank y) as [[c2 e2] m2],
    (SFrank z) as [[c3 e3] m3]. cbn in *. lia.
Qed.

Lemma SFleb_rank (x y : spec_float) :
  is_nan x = false -> is_nan y = false ->
  (SFleb x y = true <-> ~ rankLt (SFrank y) (SFrank x)).
Proof.
  intros Hx Hy. unfold SFleb, SFcompare.
  destruct x as [sx|sx| |sx mx ex]; try discriminate;
  destruct y as [sy|sy| |sy my ey]; try discriminate;
  try destruct sx; try destruct sy; cbn [SFrank rankLt];
  rewrite ?Pos_compare_cont_Eq;
  try (split; [intros _; lia | reflexivity]);
  try (split; [discriminate | lia]).
  - destruct (Z.compare_spec ex ey); destruct (Z.compare_spec (Z.pos mx) (Z.pos my));
      cbn [CompOpp]; split; intros; try lia; try discriminate; try reflexivity.
  - destruct (Z.compare_spec ex ey); destruct (Z.compare_spec (Z.pos mx) (Z.pos my));
      cbn [CompOpp]; split; intros; try lia; try discriminate; try reflexivity.
Qed.

(** Among floats that are not NaN, "not less" is "greater or equal". *)
Lemma SFgeb_of_not_ltb (x y : spec_float) :
  is_nan x = false -> is_nan y = false ->
  SFltb x y = false -> SFgeb x y = true.
Proof.
  intros Hx Hy H. unfold SFgeb. apply (SFleb_rank y x Hy Hx).
  intros Hlt. apply (SFltb_rank x y Hx Hy) in Hlt. congruence.
Qed.

(** ** Selection sort *)

Lemma strictWeakOn_incl {A} (less : A -> A -> bool) (l l' : list A) :
  incl l' l -> strictWeakOn less l -> strictWeakOn less l'.
Proof.
  intros Hincl (Hirr & Htr & Hneg). repeat split.
  - intros a Ha. apply Hirr, Hincl, Ha.
  - intros a b c Ha Hb Hc. apply Htr; apply Hincl; assumption.
  - intros a b c Ha Hb Hc. apply Hneg; apply Hincl; assumption.
Qed.

Section SelectionSort.

Context {A : Type}.
Variable gt : A -> A -> bool.

Lemma selectMax_perm (rest : list A) :
  forall x, Permutation (fst (selectMax gt x rest) :: snd (selectMax gt x rest))
                        (x :: rest).
Proof.
  induction rest as [|y ys IH]; intros x; cbn [selectMax].
  - reflexivity.
  - destruct (gt y x).
    + specialize (IH y). destruct (selectMax gt y ys) as [m ys']. cbn [fst snd] in *.
      etransitivity; [apply perm_swap|]. apply perm_skip. exact IH.
    + specialize (IH x). destruct (selectMax gt x ys) as [m ys']. cbn [fst snd] in *.
      etransitivity; [apply perm_swap|].
      etransitivity; [apply perm_skip; exact IH|]. apply perm_swap.
Qed.

Lemma selectMax_length (rest : list A) :
  forall x, length (snd (selectMax gt x rest)) = length rest.
Proof.
  intros x. pose proof (Permutation_length (selectMax_perm rest x)) as H.
  simpl in H. lia.
Qed.

(** Nothing in [x :: rest] is greater than the selected element. *)
Lemma selectMax_greatest (rest : list A) :
  forall x, strictWeakOn gt (x :: rest) ->
    gt x (fst (selectMax gt x rest)) = false /\
    Forall (fun z => gt z (fst (selectMax gt x rest)) = false)
           (snd (selectMax gt x rest)).
Proof.
  induction rest as [|y ys IH]; intros x Hsw; cbn [selectMax].
  - cbn [fst snd]. split; [|constructor].
    destruct Hsw as (Hirr & _). apply Hirr. left. reflexivity.
  - destruct (gt y x) eqn:Hyx.
    + assert (Hsw' : strictWeakOn gt (y :: ys)).
      { apply (strictWeakOn_incl gt (x :: y :: ys)); [|exact Hsw].
        intros a Ha. right. exact Ha. }
      specialize (IH y Hsw').
      pose proof (selectMax_perm ys y) as Hperm.
      destruct (selectMax gt y ys) as [m ys']. cbn [fst snd] in *.
      destruct IH as [Hym Hall].
      assert (Hm : In m (x :: y :: ys)).
      { right. apply (Permutation_in _ Hperm). left. reflexivity. }
      assert (Hxm : gt x m = false).
      { destruct (gt x m) eqn:E; [|reflexivity].
        destruct Hsw as (_ & Htr & _).
        rewrite (Htr y x m) in Hym; [discriminate| | | |exact Hyx|exact E];
          [right; left; reflexivity|left; reflexivity|exact Hm]. }
      split; [exact Hxm|]. constructor; [exact Hxm|exact Hall].
    + assert (Hsw' : strictWeakOn gt (x :: ys)).
      { apply (strictWeakOn_incl gt (x :: y :: ys)); [|exact Hsw].
        intros a [Ha|Ha]; [left; exact Ha|right; right; exact Ha]. }
      specialize (IH x Hsw').
      pose proof (selectMax_perm ys x) as Hperm.
      destruct (selectMax gt x ys) as [m ys']. cbn [fst snd] in *.
      destruct IH as [Hxm Hall].
      assert (Hm : In m (x :: y :: ys)).
      { assert (H : In m (x :: ys)).
        { apply (Permutation_in _ Hperm). left. reflexivity. }
        destruct H as [H|H]; [left; exact H|right; right; exact H]. }
      split; [exact Hxm|]. constructor; [|exact Hall].
      destruct Hsw as (_ & _ & Hneg).
      apply (Hneg y x m); [right; left; reflexivity|left; reflexivity|exact Hm
                          |exact Hyx|exact Hxm].
Qed.

Lemma selectionSort_perm (passes : nat) :
  forall l, Permutation (selectionSort gt passes l) l.
Proof.
  induction passes as [|n IH]; intros l; cbn [selectionSort].
  - destruct l; reflexivity.
  - destruct l as [|x rest]; [reflexivity|].
    pose proof (selectMax_perm rest x) as Hperm.
    destruct (selectMax gt x rest) as [m rest']. cbn [fst snd] in *.
    rewrite (IH rest'). exact Hperm.
Qed.

Lemma selectionSort_sorted (passes : nat) :
  forall l, strictWeakOn gt l -> (length l <= S passes)%nat ->
    Sorted (fun a b => gt b a = false) (selectionSort gt passes l).
Proof.
  induction passes as [|n IH]; intros l Hsw Hlen; cbn [selectionSort].
  - destruct l as [|x [|y l]]; simpl in Hlen; try lia; repeat constructor.
  - destruct l as [|x rest]; [constructor|].
    pose proof (selectMax_perm rest x) as Hperm.
    pose proof (selectMax_greatest rest x Hsw) as [_ Hall].
    pose proof (selectMax_length rest x) as Hl.
    destruct (selectMax gt x rest) as [m rest']. cbn [fst snd] in *.
    assert (Hsw' : strictWeakOn gt rest').
    { apply (strictWeakOn_incl gt (x :: rest)); [|exact Hsw].
      intros a Ha. apply (Permutation_in _ Hperm). right. exact Ha. }
    constructor.
    + apply IH; [exact Hsw'|]. simpl in Hlen. lia.
    + pose proof (selectionSort_perm n rest') as Hp.
      destruct (selectionSort gt n rest') as [|h t]; constructor.
      rewrite Forall_forall in Hall. apply Hall.
      apply list_elem_of_In. apply (Permutation_in _ Hp). left. reflexivity.
Qed.

(** An ordered list is left as it is: no element is exchanged. *)
Lemma selectMax_ordered (rest : list A) (x : A) :
  Forall (fun y => gt y x = false) rest -> selectMax gt x rest = (x, rest).
Proof.
  induction 1 as [|y ys Hy _ IH]; cbn [selectMax]; [reflexivity|].
  rewrite Hy, IH. reflexivity.
Qed.

Lemma selectionSort_ordered (passes : nat) :
  forall l, ForallOrdPairs (fun a b => gt b a = false) l ->
    selectionSort gt passes l = l.
Proof.
  induction passes as [|n IH]; intros l Hl; cbn [selectionSort].
  - destruct l; reflexivity.
  - destruct l as [|x rest]; [reflexivity|].
    inversion Hl as [|? ? Hx Hrest]; subst.
    rewrite (selectMax_ordered rest x Hx). rewrite (IH rest Hrest). reflexivity.
Qed.

End SelectionSort.

(** The selection sort is one of the sorts [sort.Slice] may be. *)
Lemma sample_sort_is_sort {A} : GoSortSlice (@Sample.sortSlice A).
Proof.
  intros less l. unfold Sample.sortSlice. split.
  - apply selectionSort_perm.
  - intros Hsw. apply selectionSort_sorted; [exact Hsw|lia].
Qed.

(** ** The exchange sort of [PostprocessPredictions] *)

Lemma swapIfGreater_middle (pre done ys : list ClassificationPrediction)
    (x y : ClassificationPrediction) :
  swapIfGreater (length pre) (S (length pre + length done))
                (pre ++ x :: done ++ y :: ys)
  = if gtProbability y x
    then pre ++ y :: done ++ x :: ys
    else pre ++ x :: done ++ y :: ys.
Proof.
  unfold swapIfGreater, gtProbability.
  rewrite (list_lookup_middle pre (done ++ y :: ys) x (length pre) eq_refl).
  assert (Hj : (pre ++ x :: done ++ y :: ys) !! S (length pre + length done) = Some y).
  { replace (pre ++ x :: done ++ y :: ys) with ((pre ++ x :: done) ++ y :: ys)
      by (rewrite <- app_assoc; reflexivity).
    apply list_lookup_middle. rewrite length_app. simpl. lia. }
  rewrite Hj.
  destruct (F32.gtb (Probability y) (Probability x)); [|reflexivity].
  replace (S (length pre + length done)) with (length pre + S (length done))%nat by lia.
  rewrite insert_app_r.
  replace (length pre) with (length pre + 0)%nat at 1 by lia.
  rewrite insert_app_r. f_equal. simpl. f_equal.
  replace (length done) with (length done + 0)%nat by lia.
  rewrite insert_app_r. reflexivity.
Qed.

Lemma sortInner_fold (pre : list ClassificationPrediction) :
  forall (ys done : list ClassificationPrediction) (x : ClassificationPrediction),
  foldl (fun r j => swapIfGreater (length pre) j r)
        (pre ++ x :: done ++ ys)
        (seq (S (length pre + length done)) (length ys))
  = pre ++ fst (selectMax gtProbability x ys) :: done
        ++ snd (selectMax gtProbability x ys).
Proof.
  induction ys as [|y ys IH]; intros done x.
  - reflexivity.
  - cbn [length seq foldl selectMax].
    rewrite swapIfGreater_middle.
    destruct (gtProbability y x).
    + specialize (IH (done ++ [x]) y).
      rewrite length_app in IH. simpl length in IH.
      replace (S (length pre + (length done + 1))) with (S (S (length pre + length done)))
        in IH by lia.
      rewrite <- !app_assoc in IH. simpl in IH. rewrite IH.
      destruct (selectMax gtProbability y ys) as [m ys']. reflexivity.
    + specialize (IH (done ++ [y]) x).
      rewrite length_app in IH. simpl length in IH.
      replace (S (length pre + (length done + 1))) with (S (S (length pre + length done)))
        in IH by lia.
      rewrite <- !app_assoc in IH. simpl in IH. rewrite IH.
      destruct (selectMax gtProbability x ys) as [m ys']. reflexivity.
Qed.

(** One pass of the inner loop selects the greatest remaining entry. *)
Lemma sortInner_select (pre rest : list ClassificationPrediction)
    (x : ClassificationPrediction) :
  sortInner (length pre) (pre ++ x :: rest)
  = pre ++ fst (selectMax gtProbability x rest)
        :: snd (selectMax gtProbability x rest).
Proof.
  unfold sortInner.
  replace (length (pre ++ x :: rest) - S (length pre))%nat with (length rest)
    by (rewrite length_app; simpl; lia).
  pose proof (sortInner_fold pre rest [] x) as H.
  simpl in H. replace (length pre + 0)%nat with (length pre) in H by lia.
  exact H.
Qed.

Lemma sortOuter_fold (passes : nat) :
  forall (pre l : list ClassificationPrediction),
  foldl (fun r i => sortInner i r) (pre ++ l) (seq (length pre) passes)
  = pre ++ selectionSort gtProbability passes l.
Proof.
  induction passes as [|n IH]; intros pre l.
  - destruct l; reflexivity.
  - destruct l as [|x rest].
    + cbn [selectionSort]. rewrite app_nil_r.
      assert (Hnil : forall k i (r : list ClassificationPrediction),
                (length r <= i)%nat ->
                foldl (fun r i => sortInner i r) r (seq i k) = r).
      { clear. induction k as [|k IHk]; intros i r Hr; [reflexivity|].
        cbn [seq foldl].
        assert (Hin : sortInner i r = r).
        { unfold sortInner. replace (length r - S i)%nat with 0%nat by lia. reflexivity. }
        rewrite Hin. apply IHk. lia. }
      apply Hnil. lia.
    + cbn [seq foldl selectionSort]. rewrite sortInner_select.
      pose proof (selectMax_length gtProbability rest x) as Hl.
      destruct (selectMax gtProbability x rest) as [m rest']. cbn [fst snd] in *.
      specialize (IH (pre ++ [m]) rest').
      rewrite length_app in IH. simpl length in IH.
      replace (length pre + 1)%nat with (S (length pre)) in IH by lia.
      rewrite <- !app_assoc in IH. simpl in IH. exact IH.
Qed.

(** The two nested loops are a selection sort. *)
Lemma sortDescending_selection (results : list ClassificationPrediction) :
  sortDescending results
  = selectionSort gtProbability (length results - 1) results.
Proof.
  unfold sortDescending. exact (sortOuter_fold (length results - 1) [] results).
Qed.

(** ** Order of the returned predictions *)

Lemma collectResults_lookup (classNames : list string) (probs : list float32) :
  forall (i p : nat) (a : ClassificationPrediction),
  (i + length probs <= length classNames)%nat ->
  collectResults i probs classNames !! p = Some a ->
  ClassIndex a = (i + p)%nat /\ probs !! p = Some (Probability a).
Proof.
  induction probs as [|prob rest IH]; intros i p a Hlen Hp.
  - discriminate.
  - cbn [collectResults] in Hp. simpl in Hlen.
    destruct (classNames !! i) as [name|] eqn:Hn.
    + destruct p as [|p].
      * injection Hp as <-. simpl. split; [lia|reflexivity].
      * simpl in Hp. destruct (IH (S i) p a) as [H1 H2]; [lia|exact Hp|].
        split; [lia|exact H2].
    + apply lookup_ge_None in Hn. lia.
Qed.

Lemma collectResults_probabilities (classNames : list string) (probs : list float32) :
  forall i, (i + length probs <= length classNames)%nat ->
  map Probability (collectResults i probs classNames) = probs.
Proof.
  induction probs as [|prob rest IH]; intros i Hlen; [reflexivity|].
  cbn [collectResults]. simpl in Hlen.
  destruct (classNames !! i) as [name|] eqn:Hn.
  - simpl. rewrite IH; [reflexivity|lia].
  - apply lookup_ge_None in Hn. lia.
Qed.


Lemma Sorted_take {A} (R : A -> A -> Prop) (l : list A) (n : nat) :
  Sorted R l -> Sorted R (take n l).
Proof.
  intros H. revert n. induction H as [|a l Hs IH Hhd]; intros n.
  - destruct n; constructor.
  - destruct n as [|n]; [constructor|]. simpl. constructor; [apply IH|].
    destruct Hhd as [|b l' Hab]; [destruct n; constructor|].
    destruct n; constructor. exact Hab.
Qed.

Lemma Sorted_weaken {A} (R R' : A -> A -> Prop) (l : list A) :
  (forall a b, In a l -> In b l -> R a b -> R' a b) ->
  Sorted R l -> Sorted R' l.
Proof.
  intros Himp H. induction H as [|a l Hs IH Hhd]; [constructor|].
  constructor.
  - apply IH. intros x y Hx Hy. apply Himp; right; assumption.
  - destruct Hhd as [|b l' Hab]; constructor.
    apply Himp; [left; reflexivity|right; left; reflexivity|exact Hab].
Qed.


Section Postprocess.

Variable mathExp : float64 -> float64.


End Postprocess.


(** ** The softmax on particular scores *)

Section SoftmaxValues.

Variable mathExp : float64 -> float64.

Lemma softmaxExp_terms (maxVal : float32) (logits : list float32) :
  softmaxExp mathExp maxVal logits
  = (map (expTerm mathExp maxVal) logits,
     foldl F32.add F32.zero (map (expTerm mathExp maxVal) logits)).
Proof.
  unfold softmaxExp.
  enough (H : forall acc sum,
    foldl (fun '(expVals, expSum) val =>
             let e := F32.of_float64 (fastExp mathExp (F64.of_float32 (F32.sub val maxVal))) in
             (expVals ++ [e], F32.add expSum e)) (acc, sum) logits
    = (acc ++ map (expTerm mathExp maxVal) logits,
       foldl F32.add sum (map (expTerm mathExp maxVal) logits))) by apply H.
  induction logits as [|v l IH]; intros acc sum; cbn [foldl map].
  - rewrite app_nil_r. reflexivity.
  - rewrite IH. rewrite <- app_assoc. reflexivity.
Qed.

(** [applySoftmax] in terms of the exponentials. *)
Lemma applySoftmax_terms (first : float32) (logits : list float32) :
  logits !! 0%nat = Some first ->
  applySoftmax mathExp logits =
    let maxVal := softmaxMax first logits in
    let expVals := map (expTerm mathExp maxVal) logits in
    Some (map (fun expVal => F32.div expVal (foldl F32.add F32.zero expVals)) expVals).
Proof.
  intros H. unfold applySoftmax. rewrite H. cbv beta iota zeta.
  rewrite softmaxExp_terms. reflexivity.
Qed.

Hypothesis exp_doc : GoExp mathExp.



(** A logit more than 700 below the maximum contributes 0. *)
Lemma expTerm_far_below :
  expTerm mathExp (F32.lit 1000 0) F32.zero = F32.zero.
Proof. reflexivity. Qed.

Lemma expTerm_of_max_1000 :
  expTerm mathExp (F32.lit 1000 0) (F32.lit 1000 0) = F32.lit 1 0.
Proof.
  unfold expTerm, fastExp.
  change (F64.of_float32 (F32.sub (F32.lit 1000 0) (F32.lit 1000 0))) with (S754_zero false).
  change (F64.ltb (S754_zero false) (F64.opp c_700)) with false.
  change (F64.gtb (S754_zero false) c_700) with false.
  cbv beta iota. rewrite (exp_zero _ exp_doc). reflexivity.
Qed.



Lemma softmax_of_tied :
  applySoftmax mathExp Inputs.tiedScores = Some [F32.zero; F32.zero; F32.lit 1 0].
Proof.
  rewrite (applySoftmax_terms F32.zero) by reflexivity.
  change (softmaxMax F32.zero Inputs.tiedScores) with (F32.lit 1000 0).
  cbv zeta. unfold Inputs.tiedScores. cbn [map].
  rewrite expTerm_far_below, expTerm_of_max_1000. reflexivity.
Qed.




End SoftmaxValues.


(** ** Ties and shifts *)

Lemma ForallOrdPairs_map {A B} (f : A -> B) (R : B -> B -> Prop) (l : list A) :
  ForallOrdPairs R (map f l) -> ForallOrdPairs (fun a b => R (f a) (f b)) l.
Proof.
  induction l as [|a l IH]; intros H; [constructor|].
  simpl in H. inversion H as [|? ? Ha Hl]; subst. constructor.
  - rewrite Forall_map in Ha. exact Ha.
  - apply IH. exact Hl.
Qed.

Section Ties.

Variable mathExp : float64 -> float64.

Lemma applySoftmax_length (logits probs : list float32) :
  applySoftmax mathExp logits = Some probs -> length probs = length logits.
Proof.
  destruct logits as [|v l]; [discriminate|].
  intros H. rewrite (applySoftmax_terms mathExp v) in H by reflexivity.
  cbv zeta in H.
  pose proof (f_equal (fun o => match o with Some p => length p | None => 0%nat end) H)
    as E.
  cbv beta iota in E. rewrite <- E, !length_map. reflexivity.
Qed.

(** C4 (amended): the exchange sort leaves entries of equal probability in
    ascending order of class index when the probabilities are already
    non-increasing in index order: it then exchanges nothing, and the call
    returns the first [topK] entries in index order. *)
Theorem postprocess_keeps_ordered_input (predictions : list float32)
    (classNames : list string) (topK : Z) (probs : list float32) :
  length predictions = length classNames ->
  applySoftmax mathExp predictions = Some probs ->
  ForallOrdPairs (fun p q => F32.gtb q p = false) probs ->
  PostprocessPredictions mathExp predictions classNames topK
    = Ok (take (effectiveTopK topK) (collectResults 0 probs classNames)) /\
  tiesInIndexOrder (take (effectiveTopK topK) (collectResults 0 probs classNames)).
Proof.
  intros Hlen Hsoft Hord.
  pose proof (applySoftmax_length predictions probs Hsoft) as Hpl.
  set (results := collectResults 0 probs classNames).
  assert (Hprobs : map Probability results = probs).
  { apply collectResults_probabilities. lia. }
  assert (Hsame : sortDescending results = results).
  { rewrite sortDescending_selection. apply selectionSort_ordered.
    rewrite <- Hprobs in Hord. apply ForallOrdPairs_map in Hord. exact Hord. }
  split.
  - unfold PostprocessPredictions. rewrite Hlen, Nat.eqb_refl. cbn [negb].
    rewrite Hsoft. cbv zeta. fold results. rewrite Hsame. f_equal.
    unfold effectiveTopK.
    destruct (Z.gtb_spec (Z.of_nat (length results))
                         (if topK <=? 0 then 5 else topK)) as [Hgt|Hle];
      [reflexivity|].
    symmetry. apply take_ge. lia.
  - intros i j a b Hij Hi Hj _.
    apply lookup_take_Some in Hi as [Hi _]. apply lookup_take_Some in Hj as [Hj _].
    destruct (collectResults_lookup classNames probs 0 i a) as [Ha _]; [lia|exact Hi|].
    destruct (collectResults_lookup classNames probs 0 j b) as [Hb _]; [lia|exact Hj|].
    lia.
Qed.


End Ties.

Lemma postprocess_ordered_witness :
  exists probs,
    applySoftmax Sample.exp Inputs.orderedScores = Some probs /\
    map ClassIndex (take (effectiveTopK 5) (collectResults 0 probs Inputs.tiedNames))
      = [0; 1; 2]%nat /\
    tiesInIndexOrder (take (effectiveTopK 5) (collectResults 0 probs Inputs.tiedNames)).
Proof.
  eassert (Hs : applySoftmax Sample.exp Inputs.orderedScores = Some _)
    by (vm_compute; reflexivity).
  eexists. split; [exact Hs|]. split; [reflexivity|].
  apply (postprocess_keeps_ordered_input Sample.exp Inputs.orderedScores
           Inputs.tiedNames 5 _ eq_refl Hs).
  repeat constructor.
Defined.

(** C4, as stated, fails on two tied classes below a third: the exchange
    that brings the third class to the front puts the first class behind
    the second. *)
Lemma tied_entries_are_reordered :
  ~ exists mathExp,
      GoExp mathExp /\
      tiesKeepIndexOrder mathExp Inputs.tiedScores Inputs.tiedNames 5.
Proof.
  intros (mathExp & Hdoc & out & Hout & Hties).
  unfold PostprocessPredictions in Hout.
  rewrite (softmax_of_tied mathExp Hdoc) in Hout.
  vm_compute in Hout. injection Hout as <-.
  specialize (Hties 1%nat 2%nat _ _ ltac:(lia) eq_refl eq_refl eq_refl).
  simpl in Hties. lia.
Qed.



(** ** The entries of a prediction result *)

Lemma normalizeProbabilities_confidence (l : list ClassificationResult) :
  map CRConfidence (normalizeProbabilities l) = map CRConfidence l.
Proof.
  unfold normalizeProbabilities. destruct (F64.gtb _ _); [|reflexivity].
  rewrite map_map. reflexivity.
Qed.


(** Order and bounds that only read the confidence carry over to a list
    with the same confidences. *)
Lemma Sorted_same_keys {A B} (key : A -> B) (R : B -> B -> Prop) (l l' : list A) :
  map key l = map key l' ->
  Sorted (fun a b => R (key a) (key b)) l ->
  Sorted (fun a b => R (key a) (key b)) l'.
Proof.
  revert l'. induction l as [|a l IH]; intros l' Hk Hs.
  - destruct l'; [constructor|discriminate].
  - destruct l' as [|a' l']; [discriminate|].
    simpl in Hk. injection Hk as Ha Hl. inversion Hs as [|? ? Hs' Hhd]; subst.
    constructor; [apply IH; assumption|].
    destruct l as [|b l]; destruct l' as [|b' l']; try discriminate; constructor.
    simpl in Hl. injection Hl as Hb _. inversion Hhd; subst.
    rewrite <- Ha, <- Hb. assumption.
Qed.


Lemma byConfidenceDesc_strictWeak (l : list ClassificationResult) :
  Forall (fun a => is_nan (CRConfidence a) = false) l ->
  strictWeakOn byConfidenceDesc l.
Proof.
  intros Hl. rewrite Forall_forall in Hl.
  assert (Hn : forall a, In a l -> is_nan (CRConfidence a) = false).
  { intros a Ha. apply Hl, list_elem_of_In, Ha. }
  unfold byConfidenceDesc, F64.gtb. repeat split.
  - intros a _. apply SFltb_irrefl.
  - intros a b c _ _ _ Hab Hbc. exact (SFltb_trans _ _ _ Hbc Hab).
  - intros a b c Ha Hb Hc Hab Hbc.
    apply (SFltb_negtrans _ (CRConfidence b)); auto.
Qed.

Section Entries.

Variable mathExp : float64 -> float64.
Variable mathSin : float64 -> float64.
Variable sortSlice :
  (ClassificationResult -> ClassificationResult -> bool) ->
  list ClassificationResult -> list ClassificationResult.
Variable Image : Type.
Variables pngDecode jpegDecode webpDecode : list Byte.byte -> option Image.
Variable resizeImage : Image -> Z -> Z -> Image.
Variable convertToRGB : Image -> Image.
Variable jpegEncode : Image -> Z -> option (list Byte.byte).

Local Abbreviation predict :=
  (PredictImage mathExp mathSin sortSlice Image pngDecode jpegDecode webpDecode
                resizeImage convertToRGB jpegEncode).


Hypothesis sort_doc : GoSortSlice sortSlice.


End Entries.


(** ** Correct rounding of the error rate *)

Lemma digits2_pos_size (p : positive) : digits2_pos p = Pos.size p.
Proof. induction p as [p IH|p IH|]; simpl; congruence. Qed.

Lemma Zdigits2_unique (q d : Z) :
  2 ^ (d - 1) <= q < 2 ^ d -> 0 < q -> Zdigits2 q = d.
Proof.
  intros Hq Hpos. destruct q as [|p|p]; try lia.
  cbn [Zdigits2]. rewrite digits2_pos_size.
  pose proof (Pos.size_gt p) as Hgt. pose proof (Pos.size_le p) as Hle.
  assert (H1 : Zpos p < 2 ^ Zpos (Pos.size p)).
  { rewrite <- Pos2Z.inj_pow. lia. }
  assert (H2 : 2 ^ Zpos (Pos.size p) <= 2 * Zpos p).
  { rewrite <- Pos2Z.inj_pow. lia. }
  assert (Hd : 0 < d).
  { destruct (Z.ltb_spec 0 d); [assumption|].
    assert (2 ^ d <= 2 ^ 0) by (destruct (Z.ltb_spec d 0);
      [rewrite Z.pow_neg_r by lia; simpl; lia | apply Z.pow_le_mono_r; lia]).
    simpl in *. lia. }
  destruct (Z.lt_trichotomy (Zpos (Pos.size p)) d) as [Hlt|[Heq|Hgt']]; [|exact Heq|].
  - assert (2 ^ Zpos (Pos.size p) <= 2 ^ (d - 1)) by (apply Z.pow_le_mono_r; lia). lia.
  - assert (2 ^ d <= 2 ^ (Zpos (Pos.size p) - 1)) by (apply Z.pow_le_mono_r; lia).
    assert (2 ^ Zpos (Pos.size p) = 2 * 2 ^ (Zpos (Pos.size p) - 1)).
    { rewrite <- Z.pow_succ_r by lia. f_equal. lia. }
    lia.
Qed.

Lemma shr_record_loc (m : Z) (l : location) :
  shr_m (shr_record_of_loc m l) = m /\
  loc_of_shr_record (shr_record_of_loc m l) = l.
Proof. destruct l as [|[| |]]; split; reflexivity. Qed.

Lemma shr_fexp_53 (q e : Z) (l : location) :
  2 ^ 52 <= q < 2 ^ 53 -> -1074 <= e ->
  shr_fexp 53 1024 q e l = (shr_record_of_loc q l, e).
Proof.
  intros Hq He. unfold shr_fexp.
  rewrite (Zdigits2_unique q 53) by (simpl; lia).
  replace (fexp 53 1024 (53 + e) - e) with 0 by (unfold fexp, emin; lia).
  reflexivity.
Qed.

Lemma shr_fexp_54 (q e : Z) (l : location) :
  2 ^ 53 <= q < 2 ^ 54 -> -1075 <= e ->
  shr_fexp 53 1024 q e l = (shr_1 (shr_record_of_loc q l), e + 1).
Proof.
  intros Hq He. unfold shr_fexp.
  rewrite (Zdigits2_unique q 54) by (simpl; lia).
  replace (fexp 53 1024 (54 + e) - e) with 1 by (unfold fexp, emin; lia).
  reflexivity.
Qed.

Lemma shr_1_spec (m : Z) (r s : bool) :
  0 <= m ->
  shr_1 {| shr_m := m; shr_r := r; shr_s := s |}
  = {| shr_m := Z.div2 m; shr_r := Z.odd m; shr_s := r || s |}.
Proof.
  intros Hm. destruct m as [|p|p]; [reflexivity| |lia].
  destruct p; reflexivity.
Qed.

(** The second normalisation of [binary_round_aux]: the carry of the
    rounding. *)
Lemma round_carry (q1 e : Z) :
  2 ^ 52 <= q1 <= 2 ^ 53 -> -1074 <= e <= 969 ->
  (let '(mrs, e') := shr_fexp 53 1024 q1 e loc_Exact in
   match shr_m mrs with
   | Z0 => S754_zero false
   | Zpos m => if e' <=? 1024 - 53 then S754_finite false m e' else S754_infinity false
   | Zneg _ => S754_nan
   end)
  = if q1 <? 2 ^ 53 then S754_finite false (Z.to_pos q1) e
    else S754_finite false (Z.to_pos (2 ^ 52)) (e + 1).
Proof.
  intros Hq He. destruct (Z.ltb_spec q1 (2 ^ 53)) as [Hlt|Hge].
  - rewrite shr_fexp_53 by lia. cbn [shr_record_of_loc shr_m].
    destruct q1 as [|p|p]; try (simpl in Hq; lia).
    destruct (Z.leb_spec e (1024 - 53)); [reflexivity|lia].
  - assert (q1 = 2 ^ 53) by lia. subst q1.
    rewrite shr_fexp_54 by (simpl; lia).
    cbn [shr_record_of_loc]. rewrite shr_1_spec by (simpl; lia).
    cbn [shr_m]. change (Z.div2 (2 ^ 53)) with (Zpos (Z.to_pos (2 ^ 52))).
    cbv beta iota.
    destruct (Z.leb_spec (e + 1) (1024 - 53)); [reflexivity|lia].
Qed.

Lemma round_nearest_even_range (q : Z) (l : location) :
  round_nearest_even q l = q \/ round_nearest_even q l = q + 1.
Proof.
  destruct l as [|[| |]]; simpl; auto. destruct (Z.even q); auto.
Qed.

Lemma round_aux_53 (q e : Z) (l : location) :
  2 ^ 52 <= q < 2 ^ 53 -> -1074 <= e <= 969 ->
  binary_round_aux 53 1024 false q e l
  = let q1 := round_nearest_even q l in
    if q1 <? 2 ^ 53 then S754_finite false (Z.to_pos q1) e
    else S754_finite false (Z.to_pos (2 ^ 52)) (e + 1).
Proof.
  intros Hq He. unfold binary_round_aux.
  rewrite shr_fexp_53 by lia.
  destruct (shr_record_loc q l) as [-> ->].
  cbv zeta. apply round_carry; [|lia].
  destruct (round_nearest_even_range q l) as [-> | ->]; lia.
Qed.

Lemma round_aux_54 (q e : Z) (l : location) :
  2 ^ 53 <= q < 2 ^ 54 -> -1075 <= e <= 968 ->
  binary_round_aux 53 1024 false q e l
  = let mrs := shr_1 (shr_record_of_loc q l) in
    let q1 := round_nearest_even (shr_m mrs) (loc_of_shr_record mrs) in
    if q1 <? 2 ^ 53 then S754_finite false (Z.to_pos q1) (e + 1)
    else S754_finite false (Z.to_pos (2 ^ 52)) (e + 2).
Proof.
  intros Hq He. unfold binary_round_aux.
  rewrite shr_fexp_54 by lia.
  cbv zeta.
  set (mrs := shr_1 (shr_record_of_loc q l)).
  assert (Hm : 2 ^ 52 <= shr_m mrs < 2 ^ 53).
  { unfold mrs. destruct l as [|[| |]]; cbn [shr_record_of_loc];
      rewrite shr_1_spec by lia; cbn [shr_m]; rewrite Z.div2_div;
      split; [apply Z.div_le_lower_bound|apply Z.div_lt_upper_bound| 
              apply Z.div_le_lower_bound|apply Z.div_lt_upper_bound|
              apply Z.div_le_lower_bound|apply Z.div_lt_upper_bound|
              apply Z.div_le_lower_bound|apply Z.div_lt_upper_bound];
      simpl in *; lia. }
  replace (e + 2) with (e + 1 + 1) by lia.
  apply round_carry; [|lia].
  destruct (round_nearest_even_range (shr_m mrs) (loc_of_shr_record mrs)) as [-> | ->]; lia.
Qed.

Lemma new_location_cases (mn r : Z) :
  0 < mn -> 0 <= r < mn ->
  (new_location mn r = loc_Exact /\ r = 0) \/
  (new_location mn r = loc_Inexact Lt /\ 0 < r /\ 2 * r < mn) \/
  (new_location mn r = loc_Inexact Eq /\ 2 * r = mn) \/
  (new_location mn r = loc_Inexact Gt /\ mn < 2 * r).
Proof.
  intros Hmn Hr. unfold new_location, new_location_even, new_location_odd.
  destruct (Z.eqb_spec r 0) as [->|Hr0].
  - left. destruct (Z.even mn); auto.
  - right. pose proof (proj2 (Z.eqb_neq r 0) Hr0) as Hrb.
    destruct (Z.even mn) eqn:Hev; rewrite Hrb.
    + destruct (Z.compare_spec (2 * r) mn); [right; left|left|right; right];
        split; auto; lia.
    + assert (Hodd : Z.odd mn = true) by (rewrite <- Z.negb_even, Hev; reflexivity).
      apply Z.odd_spec in Hodd as [h Hh].
      destruct (Z.compare_spec (2 * r + 1) mn); [left|left|right; right];
        split; auto; lia.
Qed.

Lemma round_error_53 (q e mn r : Z) :
  0 < mn -> 0 <= r < mn -> 2 ^ 52 <= q < 2 ^ 53 -> -1074 <= e <= 969 ->
  roundedWithin q e mn r (binary_round_aux 53 1024 false q e (new_location mn r)).
Proof.
  intros Hmn Hr Hq He. rewrite round_aux_53 by assumption. cbv zeta.
  assert (Hcase : (round_nearest_even q (new_location mn r) = q /\ 2 * r <= mn) \/
                  (round_nearest_even q (new_location mn r) = q + 1 /\ mn <= 2 * r)).
  { destruct (new_location_cases mn r Hmn Hr)
      as [[-> H]|[[-> H]|[[-> H]|[-> H]]]]; cbn [round_nearest_even].
    - left. split; [reflexivity|lia].
    - left. split; [reflexivity|lia].
    - destruct (Z.even q); [left|right]; split; auto; lia.
    - right. split; [reflexivity|lia]. }
  unfold roundedWithin.
  destruct Hcase as [[-> Hb]|[-> Hb]].
  - destruct (Z.ltb_spec q (2 ^ 53)); [|lia].
    exists (Z.to_pos q), e, 1. rewrite Z2Pos.id by lia.
    split; [reflexivity|]. split; [lia|]. split; [left; split; reflexivity|]. lia.
  - destruct (Z.ltb_spec (q + 1) (2 ^ 53)).
    + exists (Z.to_pos (q + 1)), e, 1. rewrite Z2Pos.id by lia.
      split; [reflexivity|]. split; [lia|]. split; [left; split; reflexivity|]. lia.
    + exists (Z.to_pos (2 ^ 52)), (e + 1), 2.
      split; [reflexivity|]. split; [simpl; lia|].
      split; [right; left; split; reflexivity|].
      assert (Hq1 : q + 1 = 2 ^ 53) by lia.
      change (Zpos (Z.to_pos (2 ^ 52)) * 2) with (2 ^ 53). rewrite <- Hq1. lia.
Qed.

Lemma round_error_54 (q e mn r : Z) :
  0 < mn -> 0 <= r < mn -> 2 ^ 53 <= q < 2 ^ 54 -> -1075 <= e <= 968 ->
  roundedWithin q e mn r (binary_round_aux 53 1024 false q e (new_location mn r)).
Proof.
  intros Hmn Hr Hq He. rewrite round_aux_54 by assumption. cbv zeta.
  set (p := Z.div2 q).
  assert (Hqp : q = 2 * p + (if Z.odd q then 1 else 0)) by apply Z.div2_odd.
  assert (Hcase :
    let mrs := shr_1 (shr_record_of_loc q (new_location mn r)) in
    (round_nearest_even (shr_m mrs) (loc_of_shr_record mrs) = p /\
     (if Z.odd q then mn else 0) + r <= mn) \/
    (round_nearest_even (shr_m mrs) (loc_of_shr_record mrs) = p + 1 /\
     mn <= (if Z.odd q then mn else 0) + r)).
  { cbv zeta.
    destruct (new_location_cases mn r Hmn Hr)
      as [[-> H]|[[-> H]|[[-> H]|[-> H]]]]; cbn [shr_record_of_loc];
      rewrite shr_1_spec by lia; cbn [shr_m loc_of_shr_record orb]; fold p;
      destruct (Z.odd q); cbn [round_nearest_even];
      try (left; split; [reflexivity|lia]);
      try (right; split; [reflexivity|lia]).
    destruct (Z.even p); [left|right]; split; auto; lia. }
  cbv zeta in Hcase. unfold roundedWithin.
  assert (Hp : 2 ^ 52 <= p < 2 ^ 53).
  { destruct (Z.odd q); simpl in *; lia. }
  destruct Hcase as [[-> Hb]|[-> Hb]].
  - destruct (Z.ltb_spec p (2 ^ 53)); [|lia].
    exists (Z.to_pos p), (e + 1), 2. rewrite Z2Pos.id by lia.
    split; [reflexivity|]. split; [lia|]. split; [right; left; split; reflexivity|].
    rewrite Hqp at 1. destruct (Z.odd q); lia.
  - destruct (Z.ltb_spec (p + 1) (2 ^ 53)).
    + exists (Z.to_pos (p + 1)), (e + 1), 2. rewrite Z2Pos.id by lia.
      split; [reflexivity|]. split; [lia|]. split; [right; left; split; reflexivity|].
      rewrite Hqp at 1. destruct (Z.odd q); lia.
    + exists (Z.to_pos (2 ^ 52)), (e + 2), 4.
      split; [reflexivity|]. split; [simpl; lia|].
      split; [right; right; split; reflexivity|].
      assert (Hp1 : p + 1 = 2 ^ 53) by lia.
      change (Zpos (Z.to_pos (2 ^ 52)) * 4) with (2 * 2 ^ 53). rewrite <- Hp1.
      rewrite Hqp at 1. destruct (Z.odd q); lia.
Qed.

(** [float64(k)] for a positive [k] of [d <= 53] bits: exact, with the
    mantissa brought to 53 bits. *)
Lemma of_int_pos (k d : Z) :
  2 ^ (d - 1) <= k < 2 ^ d -> 0 < k -> d <= 53 ->
  F64.of_int k = S754_finite false (Z.to_pos (k * 2 ^ (53 - d))) (d - 53) /\
  2 ^ 52 <= k * 2 ^ (53 - d) < 2 ^ 53.
Proof.
  intros Hk Hpos Hd.
  assert (Hd1 : 1 <= d).
  { destruct (Z.leb_spec 1 d); [assumption|].
    assert (2 ^ d <= 2 ^ 0) by (destruct (Z.ltb_spec d 0);
      [rewrite Z.pow_neg_r by lia; simpl; lia | apply Z.pow_le_mono_r; lia]).
    simpl in *. lia. }
  assert (Hscale : 2 ^ 52 <= k * 2 ^ (53 - d) < 2 ^ 53).
  { assert (H52 : 2 ^ 52 = 2 ^ (d - 1) * 2 ^ (53 - d)).
    { rewrite <- Z.pow_add_r by lia. f_equal. lia. }
    assert (H53 : 2 ^ 53 = 2 ^ d * 2 ^ (53 - d)).
    { rewrite <- Z.pow_add_r by lia. f_equal. lia. }
    assert (Hp : 0 < 2 ^ (53 - d)) by (apply Z.pow_pos_nonneg; lia).
    rewrite H52, H53. split.
    - apply Z.mul_le_mono_nonneg_r; lia.
    - apply Z.mul_lt_mono_pos_r; lia. }
  split; [|exact Hscale].
  destruct k as [|p|p]; try lia.
  unfold F64.of_int, binary_normalize, binary_round.
  pose proof (Zdigits2_unique (Zpos p) d Hk Hpos) as Hdig. cbn [Zdigits2] in Hdig.
  rewrite Hdig.
  replace (fexp F64.prec F64.emax (d + 0)) with (d - 53)
    by (unfold fexp, emin, F64.prec, F64.emax; lia).
  unfold shl_align.
  destruct (Z.eq_dec d 53) as [->|Hne].
  - change (53 - 53 - 0) with 0. cbv beta iota.
    change (binary_round_aux F64.prec F64.emax false (Zpos p) 0 loc_Exact)
      with (binary_round_aux 53 1024 false (Zpos p) 0 loc_Exact).
    rewrite round_aux_53 by (simpl in *; lia).
    cbv zeta. cbn [round_nearest_even].
    destruct (Z.ltb_spec (Zpos p) (2 ^ 53)); [|simpl in *; lia].
    change (53 - 53) with 0. rewrite Z.mul_1_r. reflexivity.
  - destruct (d - 53 - 0) as [|dd|dd] eqn:Hdd; try lia.
    cbv beta iota.
    assert (Hmz : Zpos (Pos.iter xO p dd) = Zpos p * 2 ^ (53 - d)).
    { change (Pos.iter xO p dd) with (shift_pos dd p).
      rewrite shift_pos_correct.
      replace (53 - d) with (Zpos dd) by lia.
      change (2 ^ Zpos dd) with (Z.pow_pos 2 dd). lia. }
    change (binary_round_aux F64.prec F64.emax false (Zpos (Pos.iter xO p dd)) (d - 53) loc_Exact)
      with (binary_round_aux 53 1024 false (Zpos (Pos.iter xO p dd)) (d - 53) loc_Exact).
    rewrite round_aux_53 by (rewrite ?Hmz; lia).
    cbv zeta. cbn [round_nearest_even]. rewrite Hmz.
    destruct (Z.ltb_spec (Zpos p * 2 ^ (53 - d)) (2 ^ 53)); [reflexivity|lia].
Qed.

(** The quotient of two positive floats with 53-bit mantissas. *)
Lemma SFdiv_53 (mk mn : positive) (ek en : Z) :
  2 ^ 52 <= Zpos mk < 2 ^ 53 -> 2 ^ 52 <= Zpos mn < 2 ^ 53 ->
  -1000 <= ek - en <= 1000 ->
  F64.div (S754_finite false mk ek) (S754_finite false mn en)
  = binary_round_aux 53 1024 false
      ((Zpos mk * 2 ^ 53) / Zpos mn) (ek - en - 53)
      (new_location (Zpos mn) ((Zpos mk * 2 ^ 53) mod Zpos mn)).
Proof.
  intros Hk Hn He. unfold F64.div, SFdiv, SFdiv_core_binary.
  rewrite (Zdigits2_unique (Zpos mk) 53) by (simpl; lia).
  rewrite (Zdigits2_unique (Zpos mn) 53) by (simpl; lia).
  replace (Z.min (fexp F64.prec F64.emax (53 + ek - (53 + en))) (ek - en))
    with (ek - en - 53) by (unfold fexp, emin, F64.prec, F64.emax; lia).
  replace (ek - en - (ek - en - 53)) with 53 by lia.
  cbv beta iota zeta.
  rewrite Z.shiftl_mul_pow2 by lia.
  unfold Z.div, Z.modulo.
  destruct (Z.div_eucl (Zpos mk * 2 ^ 53) (Zpos mn)) as [q r].
  reflexivity.
Qed.

(** The binary64 quotient of [k] by [n] is a normal float within half a
    unit of its last place of [k/n]. *)
Lemma errorRate_rounded (k n : Z) :
  1 <= k <= n -> n < 2 ^ 53 ->
  exists (mF : positive) (eF P : Z),
    errorRate k n = S754_finite false mF eF /\
    2 ^ 52 <= Zpos mF < 2 ^ 53 /\
    P = 2 ^ (- eF) /\ 51 <= - eF <= 106 /\
    2 * Z.abs (Zpos mF * n - k * P) <= n.
Proof.
  intros Hk Hn.
  set (dk := Z.log2 k + 1). set (dn := Z.log2 n + 1).
  assert (Hdk : 2 ^ (dk - 1) <= k < 2 ^ dk).
  { unfold dk. replace (Z.log2 k + 1 - 1) with (Z.log2 k) by lia.
    apply Z.log2_spec. lia. }
  assert (Hdn : 2 ^ (dn - 1) <= n < 2 ^ dn).
  { unfold dn. replace (Z.log2 n + 1 - 1) with (Z.log2 n) by lia.
    apply Z.log2_spec. lia. }
  assert (Hkn : dk <= dn) by (unfold dk, dn; pose proof (Z.log2_le_mono k n); lia).
  assert (Hdn53 : dn <= 53).
  { unfold dn. assert (Z.log2 n < 53) by (apply Z.log2_lt_pow2; lia). lia. }
  assert (Hdk1 : 1 <= dk) by (unfold dk; pose proof (Z.log2_nonneg k); lia).
  destruct (of_int_pos k dk Hdk ltac:(lia) ltac:(lia)) as [Hfk Hmk].
  destruct (of_int_pos n dn Hdn ltac:(lia) ltac:(lia)) as [Hfn Hmn].
  set (A := 2 ^ (53 - dk)) in *. set (B := 2 ^ (53 - dn)) in *.
  set (g := dn - dk).
  assert (HB : 0 < B) by (apply Z.pow_pos_nonneg; lia).
  assert (HA : A = B * 2 ^ g).
  { unfold A, B, g. rewrite <- Z.pow_add_r by lia. f_equal. lia. }
  assert (Hg : 0 < 2 ^ g) by (apply Z.pow_pos_nonneg; unfold g; lia).
  unfold errorRate. rewrite Hfk, Hfn.
  rewrite SFdiv_53 by (rewrite ?Z2Pos.id by lia; lia).
  rewrite !Z2Pos.id by lia.
  set (mk := k * A) in *. set (mn := n * B) in *.
  set (q := (mk * 2 ^ 53) / mn). set (r := (mk * 2 ^ 53) mod mn).
  assert (Hqr : mk * 2 ^ 53 = mn * q + r) by (apply Z.div_mod; lia).
  assert (Hr : 0 <= r < mn) by (apply Z.mod_pos_bound; lia).
  assert (Hq : 2 ^ 52 <= q < 2 ^ 54).
  { split.
    - apply Z.div_le_lower_bound; [lia|]. nia.
    - apply Z.div_lt_upper_bound; [lia|]. nia. }
  assert (Hround : roundedWithin q (dk - 53 - (dn - 53) - 53) mn r
            (binary_round_aux 53 1024 false q (dk - 53 - (dn - 53) - 53)
               (new_location mn r))).
  { destruct (Z.ltb_spec q (2 ^ 53)).
    - apply round_error_53; lia.
    - apply round_error_54; lia. }
  destruct Hround as (mF & eF & T & -> & HmF & HT & Herr).
  exists mF, eF, (2 ^ (- eF)).
  split; [reflexivity|]. split; [exact HmF|]. split; [reflexivity|].
  assert (HPT : 2 ^ (- eF) * T = 2 ^ g * 2 ^ 53 /\ 0 < T /\ 51 <= - eF <= 106).
  { rewrite <- Z.pow_add_r by (unfold g; lia).
    assert (Hp1 : forall x, 0 <= x -> 2 ^ (x + 1) = 2 ^ x * 2)
      by (intros; rewrite Z.pow_add_r by lia; reflexivity).
    assert (Hp2 : forall x, 0 <= x -> 2 ^ (x + 2) = 2 ^ x * 4)
      by (intros; rewrite Z.pow_add_r by lia; reflexivity).
    destruct HT as [[-> ->]|[[-> ->]|[-> ->]]].
    - split; [|unfold g in *; lia]. rewrite Z.mul_1_r. f_equal. unfold g. lia.
    - split; [|unfold g in *; lia]. rewrite <- Hp1 by (unfold g in *; lia).
      f_equal. unfold g. lia.
    - split; [|unfold g in *; lia]. rewrite <- Hp2 by (unfold g in *; lia).
      f_equal. unfold g. lia. }
  destruct HPT as (HPT & HT0 & HeF).
  split; [exact HeF|].
  set (P := 2 ^ (- eF)) in *.
  assert (Hfactor : Zpos mF * T * mn - (q * mn + r)
                    = (Zpos mF * n - k * P) * (B * T)).
  { replace (q * mn + r) with (mk * 2 ^ 53) by lia.
    unfold mk, mn. rewrite HA.
    replace (k * (B * 2 ^ g) * 2 ^ 53) with (k * B * (2 ^ g * 2 ^ 53)) by ring.
    rewrite <- HPT. ring. }
  rewrite Hfactor, Z.abs_mul in Herr.
  rewrite (Z.abs_eq (B * T)) in Herr by lia.
  unfold mn in Herr.
  assert (HBT : 0 < B * T) by lia.
  apply (Z.mul_le_mono_pos_r _ _ (B * T) HBT).
  lia.
Qed.

Lemma SFltb_finite_pos (mc mF : positive) (ec eF : Z) :
  SFltb (S754_finite false mc ec) (S754_finite false mF eF) = true
  <-> ec < eF \/ (ec = eF /\ Zpos mc < Zpos mF).
Proof.
  rewrite SFltb_rank by reflexivity. cbn [SFrank rankLt]. lia.
Qed.

Lemma gtb_of_iff (x c : float64) (b : bool) :
  (SFltb c x = true <-> b = true) -> F64.gtb x c = b.
Proof.
  unfold F64.gtb. intros [H1 H2].
  destruct (SFltb c x); destruct b; try reflexivity.
  - symmetry. apply H1. reflexivity.
  - apply H2. reflexivity.
Qed.

(** Below [2^52] predictions the binary64 error rate is on the same side
    of 0.5 and of 0.1 as the exact ratio. *)
Lemma rateFaithful_below_2_52 (k n : Z) :
  0 <= k <= n -> 1 <= n < 2 ^ 52 -> rateFaithful k n.
Proof.
  intros Hk Hn. unfold rateFaithful.
  destruct (Z.eq_dec k 0) as [->|Hk0].
  - unfold errorRate. change (F64.of_int 0) with (S754_zero false).
    destruct (Z.ltb_spec n (2 * 0)); [lia|].
    destruct (Z.ltb_spec n (10 * 0)); [lia|].
    destruct (F64.of_int n) as [s|s| |s m e]; try destruct s; split; reflexivity.
  - destruct (errorRate_rounded k n ltac:(lia) ltac:(lia))
      as (mF & eF & P & -> & HM & HP & HeF & Hb).
    set (M := Zpos mF) in *.
    assert (HX1 : 2 ^ 52 * n <= M * n) by (apply Z.mul_le_mono_nonneg_r; lia).
    assert (HX2 : M * n <= (2 ^ 53 - 1) * n) by (apply Z.mul_le_mono_nonneg_r; lia).
    assert (HPpos : 0 < P) by (subst P; apply Z.pow_pos_nonneg; lia).
    split; apply gtb_of_iff.
    + change c_0_5 with (S754_finite false 4503599627370496 (-53)).
      rewrite SFltb_finite_pos. fold M.
      rewrite Z.ltb_lt.
      destruct (Z.lt_trichotomy eF (-53)) as [Hlt|[Heq|Hgt]].
      * assert (HPge : 2 ^ 54 <= P) by (subst P; apply Z.pow_le_mono_r; lia).
        assert (HY : k * 2 ^ 54 <= k * P) by (apply Z.mul_le_mono_nonneg_l; lia).
        split; [lia|]. intros H. exfalso. lia.
      * assert (HPeq : P = 2 ^ 53) by (subst P; f_equal; lia).
        rewrite HPeq in Hb.
        split.
        -- intros [H|[_ H]]; [lia|].
           assert (HX3 : (2 ^ 52 + 1) * n <= M * n)
             by (apply Z.mul_le_mono_nonneg_r; lia).
           lia.
        -- intros H. right. split; [lia|].
           destruct (Z.lt_ge_cases 4503599627370496 M) as [Hlt|Hge]; [exact Hlt|].
           exfalso. assert (HMeq : M = 2 ^ 52) by lia. rewrite HMeq in Hb. lia.
      * assert (HPle : P <= 2 ^ 52) by (subst P; apply Z.pow_le_mono_r; lia).
        assert (HY : k * P <= k * 2 ^ 52) by (apply Z.mul_le_mono_nonneg_l; lia).
        split; [intros _; lia|]. intros _. left. lia.
    + change c_0_1 with (S754_finite false 7205759403792794 (-56)).
      rewrite SFltb_finite_pos. fold M.
      rewrite Z.ltb_lt.
      destruct (Z.lt_trichotomy eF (-56)) as [Hlt|[Heq|Hgt]].
      * assert (HPge : 2 ^ 57 <= P) by (subst P; apply Z.pow_le_mono_r; lia).
        assert (HY : k * 2 ^ 57 <= k * P) by (apply Z.mul_le_mono_nonneg_l; lia).
        split; [lia|]. intros H. exfalso. lia.
      * assert (HPeq : P = 2 ^ 56) by (subst P; f_equal; lia).
        rewrite HPeq in Hb.
        split.
        -- intros [H|[_ H]]; [lia|].
           assert (HX3 : (7205759403792794 + 1) * n <= M * n)
             by (apply Z.mul_le_mono_nonneg_r; lia).
           lia.
        -- intros H. right. split; [lia|].
           destruct (Z.lt_ge_cases 7205759403792794 M) as [Hlt|Hge]; [exact Hlt|].
           exfalso.
           assert (HX3 : M * n <= 7205759403792794 * n)
             by (apply Z.mul_le_mono_nonneg_r; lia).
           lia.
      * assert (HPle : P <= 2 ^ 55) by (subst P; apply Z.pow_le_mono_r; lia).
        assert (HY : k * P <= k * 2 ^ 55) by (apply Z.mul_le_mono_nonneg_l; lia).
        split; [intros _; lia|]. intros _. left. lia.
Qed.

(** C2: every call of [UpdateModelStats] on a registered model adds one to
    its prediction count, whatever the outcome, and a failure adds one to its
    error count; after a sequence of calls that brings the counts to [k]
    errors out of [n] predictions, [n] below [2^52], the stored status is
    "unhealthy" iff [k/n > 0.5], "degraded" iff [0.1 < k/n <= 0.5] and
    "healthy" otherwise; after a successful call the average latency is the
    total time divided by the prediction count. *)
Theorem record_outcome_counts_and_tiers (s : ModelService) (modelID : string)
    (m : LoadedModel) (calls : list StatsCall) :
  models s !! modelID = Some m ->
  0 <= Errors m <= MPredictions m ->
  MPredictions m + Z.of_nat (length calls) <= int64_max ->
  exists m',
    models (recordOutcomes modelID calls s) !! modelID = Some m' /\
    let n := MPredictions m' in
    let k := Errors m' in
    n = MPredictions m + Z.of_nat (length calls) /\
    k = Errors m + failures calls /\
    (calls <> [] -> n < 2 ^ 52 ->
       (Status (Health m') = "unhealthy" <-> n < 2 * k) /\
       (Status (Health m') = "degraded" <-> 2 * k <= n < 10 * k) /\
       (Status (Health m') = "healthy" <-> 10 * k <= n)) /\
    (forall c, last calls = Some c -> callSuccess c = true ->
       AvgTime (Health m') = F64.div (TotalTime m') (F64.of_int n)).
Proof.
  intros Hm He Hp.
  destruct (recordOutcomes_counts modelID calls s m Hm He Hp)
    as (m' & Hl & Hc & Hf & Hr & Hst & Havg).
  exists m'. split; [exact Hl|]. cbv zeta.
  split; [exact Hc|]. split; [exact Hf|]. split; [|exact Havg].
  intros Hne Hsmall. rewrite (Hst Hne). apply healthTier_cases; [lia|].
  apply rateFaithful_below_2_52; [lia|].
  destruct calls; [congruence|]. simpl length in Hc. lia.
Qed.

Lemma record_outcome_witness :
  exists m',
    models (recordOutcomes "dummy" Inputs.calls Inputs.registry) !! "dummy" = Some m' /\
    MPredictions m' = 3 /\ Errors m' = 1 /\ Status (Health m') = "degraded".
Proof.
  destruct (record_outcome_counts_and_tiers Inputs.registry "dummy" Inputs.dummy Inputs.calls)
    as (m' & Hl & Hn & Hk & Hst & _).
  - reflexivity.
  - simpl. lia.
  - vm_compute. discriminate.
  - exists m'. split; [exact Hl|].
    change (MPredictions Inputs.dummy) with 0 in Hn.
    change (Errors Inputs.dummy) with 0 in Hk.
    change (0 + Z.of_nat (length Inputs.calls)) with 3 in Hn.
    change (0 + failures Inputs.calls) with 1 in Hk.
    split; [exact Hn|]. split; [exact Hk|].
    destruct Hst as (_ & Hd & _).
    + discriminate.
    + rewrite Hn. lia.
    + apply Hd. rewrite Hn, Hk. lia.
Defined.

(** * Further properties of the services *)

(** ** Range of the simulated confidence *)

Lemma SFltb_opp_negative (c : spec_float) :
  SFltb c F64.zero = true -> SFltb (SFopp c) F64.zero = false.
Proof.
  destruct c as [s|s| |s m e]; try destruct s; simpl; try discriminate; reflexivity.
Qed.

(** Whatever [math.Exp] and [math.Sin] return, the confidence that
    [generateConfidence] returns is neither below 0 nor above 1. *)
Theorem confidence_in_unit_range (mathExp mathSin : float64 -> float64)
    (seed index : Z) :
  let c := generateConfidence mathExp mathSin seed index in
  F64.ltb c F64.zero = false /\ F64.gtb c F64.one = false.
Proof.
  unfold generateConfidence.
  set (c0 := F64.mul _ _).
  cbv zeta.
  destruct (F64.ltb c0 F64.zero) eqn:Hneg.
  - destruct (F64.gtb (F64.opp c0) F64.one) eqn:Hgt.
    + split; reflexivity.
    + split; [|exact Hgt]. apply SFltb_opp_negative. exact Hneg.
  - destruct (F64.gtb c0 F64.one) eqn:Hgt.
    + split; reflexivity.
    + split; assumption.
Qed.

(** ** The registry after start-up *)

Section StartUp.

Variable fs : FileSystem.
Variable filepathJoin : string -> string -> string.
Variable jsonUnmarshal : list Byte.byte -> option ModelInfo.
Variable now : Time.

Local Abbreviation load := (loadEntry fs filepathJoin jsonUnmarshal now).

Lemma loadEntry_invariant (acc : ModelService * Z) (entry : DirEntry) :
  loadInvariant acc -> loadInvariant (load acc entry).
Proof.
  destruct acc as [s c]. unfold loadInvariant, loadEntry. intros (Hc & Hz & Hp).
  destruct (entryIsDir entry); cbn [negb]; [|auto].
  unfold loadModel.
  destruct (fsStat fs _); cbn [config models defaultModel].
  - destruct (decide (defaultModel s = "")) as [He|He]; cbn [models defaultModel].
    + split; [lia|]. split; [lia|]. intros _. rewrite lookup_insert_eq. eauto.
    + split; [lia|]. split; [lia|]. intros _.
      assert (0 < c) as Hpos.
      { destruct (Z.eq_dec c 0) as [->|]; [|lia]. destruct Hz; [reflexivity|]. contradiction. }
      destruct (Hp Hpos) as [m Hm].
      destruct (decide (entryName entry = defaultModel s)) as [->|Hne].
      * rewrite lookup_insert_eq. eauto.
      * rewrite lookup_insert_ne by exact Hne. eauto.
  - auto.
  - destruct (decide (defaultModel s = "")) as [He|He]; cbn [models defaultModel].
    + split; [lia|]. split; [lia|]. intros _. rewrite lookup_insert_eq. eauto.
    + split; [lia|]. split; [lia|]. intros _.
      assert (0 < c) as Hpos.
      { destruct (Z.eq_dec c 0) as [->|]; [|lia]. destruct Hz; [reflexivity|]. contradiction. }
      destruct (Hp Hpos) as [m Hm].
      destruct (decide (entryName entry = defaultModel s)) as [->|Hne].
      * rewrite lookup_insert_eq. eauto.
      * rewrite lookup_insert_ne by exact Hne. eauto.
Qed.

Lemma loadEntries_invariant (entries : list DirEntry) (acc : ModelService * Z) :
  loadInvariant acc -> loadInvariant (foldl load acc entries).
Proof.
  revert acc. induction entries as [|entry rest IH]; intros acc H; [exact H|].
  cbn [foldl]. apply IH, loadEntry_invariant, H.
Qed.

Lemma NewModelService_cases (cfg : Config) :
  let s := NewModelService fs filepathJoin jsonUnmarshal now cfg in
  (modelDirUnreadable fs cfg /\ s = emptyModelService cfg) \/
  (~ modelDirUnreadable fs cfg /\ is_Some (models s !! defaultModel s)).
Proof.
  unfold NewModelService, LoadModels, modelDirUnreadable.
  cbn [config emptyModelService].
  set (p := Path (Model cfg)).
  assert (Hdummy : forall s0,
            is_Some (models (createDummyModel now s0)
                       !! defaultModel (createDummyModel now s0))).
  { intros s0. cbn [createDummyModel models defaultModel].
    rewrite lookup_insert_eq. eauto. }
  assert (Hloop : forall entries,
            is_Some (models (fst (let '(s', loadedCount) :=
                                    foldl load (emptyModelService cfg, 0) entries in
                                  if loadedCount =? 0
                                  then (createDummyModel now s', @None ModelError)
                                  else (s', None)))
                     !! defaultModel (fst (let '(s', loadedCount) :=
                                    foldl load (emptyModelService cfg, 0) entries in
                                  if loadedCount =? 0
                                  then (createDummyModel now s', @None ModelError)
                                  else (s', None))))).
  { intros entries.
    pose proof (loadEntries_invariant entries (emptyModelService cfg, 0)) as Hinv.
    destruct (foldl load (emptyModelService cfg, 0) entries) as [s' c].
    destruct Hinv as (Hc & Hz & Hp).
    { cbn. split; [lia|]. split; [auto|lia]. }
    destruct (Z.eqb_spec c 0) as [->|Hne]; cbn [fst].
    - apply Hdummy.
    - apply Hp. lia. }
  destruct (fsStat fs p) eqn:Hstat.
  - destruct (fsReadDir fs p) as [entries|] eqn:Hdir.
    + right. split; [intros [_ H]; discriminate|]. apply Hloop.
    + left. split; [split; [discriminate|reflexivity]|reflexivity].
  - right. split; [intros [H _]; contradiction|]. apply Hdummy.
  - destruct (fsReadDir fs p) as [entries|] eqn:Hdir.
    + right. split; [intros [_ H]; discriminate|]. apply Hloop.
    + left. split; [split; [discriminate|reflexivity]|reflexivity].
Qed.

(** After [NewModelService] the default model is registered, so that
    [GetDefaultModel] and [GetModel] with the empty identifier return it,
    unless the model directory exists and cannot be listed. *)
Theorem default_model_resolves (cfg : Config) :
  ~ modelDirUnreadable fs cfg ->
  let s := NewModelService fs filepathJoin jsonUnmarshal now cfg in
  exists model,
    models s !! defaultModel s = Some model /\
    GetDefaultModel s = Ok model /\
    GetModel s "" = Ok model.
Proof.
  intros Hok s.
  destruct (NewModelService_cases cfg) as [[Hbad _]|[_ [model Hm]]]; [contradiction|].
  fold s in Hm. exists model. split; [exact Hm|].
  unfold GetDefaultModel, GetModel.
  destruct (decide (defaultModel s = "")) as [He|He];
    destruct (decide ("" = "")) as [_|Hne]; try contradiction;
    rewrite Hm; auto.
Qed.

(** The home page reports the system "degraded" exactly when the registry
    is empty, which after [NewModelService] happens exactly when the model
    directory exists and cannot be listed; no identifier resolves then, and
    the health check still answers "healthy". *)
Theorem home_page_degraded_iff_unreadable (cfg : Config) :
  let s := NewModelService fs filepathJoin jsonUnmarshal now cfg in
  (SystemHealth (Index (Some s)) = "degraded" <-> modelDirUnreadable fs cfg) /\
  (SystemHealth (Index (Some s)) = "healthy" <-> ~ modelDirUnreadable fs cfg) /\
  (modelDirUnreadable fs cfg ->
     ListModels s = [] /\
     (forall modelID, is_err (GetModel s modelID) = true) /\
     HCStatus (APIHealthCheck s) = "healthy").
Proof.
  intros s.
  assert (Hsize : forall s0 : ModelService,
            SystemHealth (Index (Some s0)) =
              if (size (models s0) =? 0)%nat then "degraded" else "healthy").
  { intros s0. unfold Index, GetModelStatus. cbn [SystemHealth Models].
    rewrite map_size_fmap. reflexivity. }
  destruct (NewModelService_cases cfg) as [[Hbad He]|[Hok [model Hm]]]; fold s in He || fold s in Hm.
  - rewrite Hsize, He. cbn [emptyModelService models]. rewrite map_size_empty.
    cbn [Nat.eqb].
    split; [split; auto|]. split; [split; [discriminate|contradiction]|].
    intros _. split; [|split].
    + unfold ListModels. cbn [emptyModelService models].
      rewrite map_to_list_empty. reflexivity.
    + intros modelID. unfold GetModel. cbn [emptyModelService models defaultModel].
      rewrite lookup_empty. reflexivity.
    + unfold APIHealthCheck, GetModelStatus.
      cbn [emptyModelService Models models HCStatus].
      rewrite fmap_empty, map_to_list_empty. reflexivity.
  - rewrite Hsize.
    assert (Hnz : size (models s) <> 0%nat).
    { intros Hz. apply map_size_empty_inv in Hz. rewrite Hz, lookup_empty in Hm.
      discriminate. }
    destruct (Nat.eqb_spec (size (models s)) 0) as [Hz|_]; [contradiction|].
    split; [split; [discriminate|contradiction]|].
    split; [split; auto|]. intros Hbad. contradiction.
Qed.

End StartUp.

Lemma default_model_resolves_witness :
  exists model,
    GetModel (NewModelService Sample.noModelDir Sample.filepathJoin
                              Sample.jsonUnmarshal 0 Sample.cfg) "" = Ok model /\
    ID (Info model) = "dummy".
Proof.
  destruct (default_model_resolves Sample.noModelDir Sample.filepathJoin
              Sample.jsonUnmarshal 0 Sample.cfg) as (model & Hm & _ & Hg).
  { intros [H _]. apply H. reflexivity. }
  exists model. split; [exact Hg|].
  vm_compute in Hm. injection Hm as <-. reflexivity.
Defined.

(** ** Statistics and the rest of the registry *)

Lemma updateStats_mirrors (now : Time) (t : float64) (success : bool) (m : LoadedModel) :
  healthMirrorsCounters m -> healthMirrorsCounters (updateStats now t success m).
Proof.
  unfold healthMirrorsCounters, updateStats. intros (Hp & He & Hl).
  cbn [Health HPredictions MPredictions HErrors Errors HLastUsed LastUsed].
  rewrite Hp, He. auto.
Qed.

Section Mirror.

Variable fs : FileSystem.
Variable filepathJoin : string -> string -> string.
Variable jsonUnmarshal : list Byte.byte -> option ModelInfo.

Lemma freshModel_mirrors (info : ModelInfo) (now : Time) :
  healthMirrorsCounters (freshModel info now).
Proof. repeat split. Qed.

Lemma loadModel_mirrored (now : Time) (s : ModelService) (modelID : string) :
  registryMirrored s ->
  registryMirrored (fst (loadModel fs filepathJoin jsonUnmarshal now s modelID)).
Proof.
  intros Hs. unfold loadModel.
  assert (Hins : forall info,
            registryMirrored {| config := config s;
                                models := <[ modelID := freshModel info now ]> (models s);
                                defaultModel := defaultModel s |}).
  { intros info id m. cbn [models].
    destruct (decide (id = modelID)) as [->|Hne].
    - rewrite lookup_insert_eq. intros [= <-]. apply freshModel_mirrors.
    - rewrite lookup_insert_ne by auto. apply Hs. }
  destruct (fsStat fs _); cbn [fst]; [apply Hins|exact Hs|apply Hins].
Qed.

Lemma loadEntry_mirrored (now : Time) (acc : ModelService * Z) (entry : DirEntry) :
  registryMirrored (fst acc) ->
  registryMirrored (fst (loadEntry fs filepathJoin jsonUnmarshal now acc entry)).
Proof.
  destruct acc as [s c]. cbn [fst]. intros Hs. unfold loadEntry.
  destruct (entryIsDir entry); cbn [negb fst]; [|exact Hs].
  pose proof (loadModel_mirrored now s (entryName entry) Hs) as Hl.
  destruct (loadModel fs filepathJoin jsonUnmarshal now s (entryName entry)) as [s' [e|]];
    cbn [fst] in *; [exact Hs|].
  destruct (decide (defaultModel s' = "")); cbn [fst]; exact Hl.
Qed.

Lemma createDummyModel_mirrored (now : Time) (s : ModelService) :
  registryMirrored s -> registryMirrored (createDummyModel now s).
Proof.
  intros Hs id m. cbn [createDummyModel models].
  destruct (decide (id = "dummy")) as [->|Hne].
  - rewrite lookup_insert_eq. intros [= <-]. apply freshModel_mirrors.
  - rewrite lookup_insert_ne by auto. apply Hs.
Qed.

Lemma LoadModels_mirrored (now : Time) (s : ModelService) :
  registryMirrored s ->
  registryMirrored (fst (LoadModels fs filepathJoin jsonUnmarshal now s)).
Proof.
  intros Hs. unfold LoadModels.
  assert (Hloop : forall entries acc,
            registryMirrored (fst acc) ->
            registryMirrored
              (fst (foldl (loadEntry fs filepathJoin jsonUnmarshal now) acc entries))).
  { induction entries as [|entry rest IH]; intros acc Hacc; [exact Hacc|].
    cbn [foldl]. apply IH, loadEntry_mirrored, Hacc. }
  assert (Hdir : forall entries,
            registryMirrored
              (fst (let '(s', loadedCount) :=
                      foldl (loadEntry fs filepathJoin jsonUnmarshal now) (s, 0) entries in
                    if loadedCount =? 0
                    then (createDummyModel now s', @None ModelError)
                    else (s', None)))).
  { intros entries. pose proof (Hloop entries (s, 0) Hs) as H.
    destruct (foldl _ _ entries) as [s' c]. cbn [fst] in H.
    destruct (c =? 0); cbn [fst]; [apply createDummyModel_mirrored|]; exact H. }
  destruct (fsStat fs _); [|apply createDummyModel_mirrored, Hs|];
    (destruct (fsReadDir fs _); [apply Hdir|exact Hs]).
Qed.

(** The health record of every model repeats the model's prediction
    count, error count and last use: this holds after [NewModelService] and
    is kept by [UpdateModelStats] and by [ReloadModel]. *)
Theorem health_record_mirrors_counters :
  (forall now cfg,
     registryMirrored (NewModelService fs filepathJoin jsonUnmarshal now cfg)) /\
  (forall now modelID t success s,
     registryMirrored s ->
     registryMirrored (UpdateModelStats now modelID t success s)) /\
  (forall now modelID s,
     registryMirrored s ->
     registryMirrored (fst (ReloadModel fs filepathJoin jsonUnmarshal now s modelID))).
Proof.
  split; [|split].
  - intros now cfg. apply LoadModels_mirrored. intros id m.
    cbn [emptyModelService models]. rewrite lookup_empty. discriminate.
  - intros now modelID t success s Hs. unfold UpdateModelStats.
    destruct (models s !! modelID) as [model|] eqn:Hm; [|exact Hs].
    intros id m. cbn [models].
    destruct (decide (id = modelID)) as [->|Hne].
    + rewrite lookup_insert_eq. intros [= <-].
      apply updateStats_mirrors, (Hs _ _ Hm).
    + rewrite lookup_insert_ne by auto. apply Hs.
  - intros now modelID s Hs. unfold ReloadModel.
    set (s0 := {| config := config s; models := delete modelID (models s);
                  defaultModel := defaultModel s |}).
    assert (H0 : registryMirrored s0).
    { intros id m. cbn [s0 models]. intros Hl.
      apply lookup_delete_Some in Hl. apply (Hs id), Hl. }
    pose proof (loadModel_mirrored now s0 modelID H0) as Hl.
    destruct (loadModel fs filepathJoin jsonUnmarshal now s0 modelID) as [s' [e|]];
      exact Hl.
Qed.

End Mirror.

(** [UpdateModelStats] changes the named model only: an identifier that is
    not registered leaves the service as it is, and otherwise every other
    model, the set of registered identifiers, the default model and the
    description of the named model are kept. *)
Theorem update_stats_touches_one_model (now : Time) (modelID : string)
    (t : float64) (success : bool) (s : ModelService) :
  let s' := UpdateModelStats now modelID t success s in
  (models s !! modelID = None -> s' = s) /\
  (forall id, id <> modelID -> models s' !! id = models s !! id) /\
  (forall id, is_Some (models s' !! id) <-> is_Some (models s !! id)) /\
  defaultModel s' = defaultModel s /\
  Permutation (ListModels s') (ListModels s) /\
  (forall id, GetModelInfo s' id = GetModelInfo s id).
Proof.
  unfold UpdateModelStats.
  destruct (models s !! modelID) as [model|] eqn:Hm; cbv zeta.
  2: { repeat split; auto; try tauto. }
  assert (Hinfo : forall id, Info <$> (<[modelID := updateStats now t success model]> (models s)) !! id
                             = Info <$> models s !! id).
  { intros id. destruct (decide (id = modelID)) as [->|Hne].
    - rewrite lookup_insert_eq, Hm. reflexivity.
    - rewrite lookup_insert_ne by auto. reflexivity. }
  split; [discriminate|]. cbn [models defaultModel].
  split; [intros id Hne; apply lookup_insert_ne; auto|].
  split.
  { intros id. destruct (decide (id = modelID)) as [->|Hne].
    - rewrite lookup_insert_eq, Hm. split; eauto.
    - rewrite lookup_insert_ne by auto. tauto. }
  split; [reflexivity|]. split.
  - unfold ListModels. cbn [models].
    assert (Hfm : Info <$> <[modelID := updateStats now t success model]> (models s)
                  = Info <$> models s).
    { apply map_eq. intros id. rewrite !lookup_fmap. apply Hinfo. }
    assert (Hl : forall m : gmap string LoadedModel,
              Permutation (map (fun kv => Info (snd kv)) (map_to_list m))
                          (map snd (map_to_list (Info <$> m)))).
    { intros m. rewrite map_to_list_fmap.
      change (@fmap list _ _ _ ?f ?l) with (map f l).
      rewrite map_map. cbn. reflexivity. }
    rewrite !Hl, Hfm. reflexivity.
  - intros id. unfold GetModelInfo, GetModel. cbn [models defaultModel].
    set (k := if decide (id = "") then defaultModel s else id).
    pose proof (Hinfo k) as Hk.
    destruct (_ !! k) as [m1|]; destruct (models s !! k) as [m2|];
      cbn in Hk; try discriminate; [injection Hk as ->|]; reflexivity.
Qed.

(** ** The health check *)

(** The health check answers "degraded" exactly when some registered model
    has a status other than "healthy", and "healthy" otherwise, an empty
    registry included; the entry "model_service" of its service table
    repeats that answer and the two other entries are always "healthy". *)
Theorem health_check_degraded_iff (s : ModelService) :
  let health := APIHealthCheck s in
  (HCStatus health = "degraded" <->
     exists id m, models s !! id = Some m /\ Status (Health m) <> "healthy") /\
  (HCStatus health = "healthy" <->
     forall id m, models s !! id = Some m -> Status (Health m) = "healthy") /\
  HCServices health !! "model_service" = Some (HCStatus health) /\
  HCServices health !! "image_service" = Some "healthy" /\
  HCServices health !! "prediction_service" = Some "healthy" /\
  Models (HCModelStatus health) = Health <$> models s.
Proof.
  unfold APIHealthCheck. cbv zeta. cbn [HCStatus HCServices HCModelStatus].
  set (degraded := existsb _ _).
  assert (Hd : degraded = true <->
               exists id m, models s !! id = Some m /\ Status (Health m) <> "healthy").
  { unfold degraded. rewrite existsb_exists. split.
    - intros ([id h] & Hin & Hb). cbn [snd] in Hb.
      apply list_elem_of_In, elem_of_map_to_list in Hin.
      unfold GetModelStatus in Hin. cbn [Models] in Hin.
      rewrite lookup_fmap in Hin.
      destruct (models s !! id) as [m|] eqn:Hm; [|discriminate].
      injection Hin as <-. exists id, m. split; [exact Hm|].
      apply negb_true_iff, bool_decide_eq_false in Hb. exact Hb.
    - intros (id & m & Hm & Hs). exists (id, Health m). split.
      + apply list_elem_of_In, elem_of_map_to_list.
        unfold GetModelStatus. cbn [Models]. rewrite lookup_fmap, Hm. reflexivity.
      + cbn [snd]. apply negb_true_iff, bool_decide_eq_false. exact Hs. }
  split; [|split; [|split; [|split; [|split]]]].
  - rewrite <- Hd. destruct degraded; split; auto; discriminate.
  - split.
    + intros Hh id m Hm.
      destruct (decide (Status (Health m) = "healthy")) as [|Hne]; [assumption|].
      assert (degraded = true) as Ht by (apply Hd; eauto).
      rewrite Ht in Hh. discriminate.
    + intros Hall. destruct degraded eqn:Hdeg; [|reflexivity].
      destruct (proj1 Hd eq_refl) as (id & m & Hm & Hs).
      destruct Hs. apply (Hall id m Hm).
  - rewrite lookup_insert_eq. reflexivity.
  - rewrite lookup_insert_ne by discriminate. rewrite lookup_insert_ne by discriminate.
    apply lookup_singleton_eq.
  - rewrite lookup_insert_ne by discriminate. apply lookup_insert_eq.
  - reflexivity.
Qed.

(** ** Reloading a model *)

Section Reloading.

Variable fs : FileSystem.
Variable filepathJoin : string -> string -> string.
Variable jsonUnmarshal : list Byte.byte -> option ModelInfo.
Variable now : Time.

Local Abbreviation reload := (ReloadModel fs filepathJoin jsonUnmarshal now).

(** When the directory of the model is gone, [ReloadModel] fails and the
    model, deleted before the attempt, is no longer registered: [GetModel]
    does not find it any more, the default model included, while the other
    models and the name of the default are kept. *)
Theorem failed_reload_unregisters_model (s : ModelService) (modelID : string) :
  fsStat fs (filepathJoin (Path (Model (config s))) modelID) = StatNotExist ->
  let s' := fst (reload s modelID) in
  snd (reload s modelID) = Some (ErrReloadFailed modelID) /\
  models s' = delete modelID (models s) /\
  defaultModel s' = defaultModel s /\
  (modelID <> "" -> GetModel s' modelID = Err (ErrModelNotFound modelID)) /\
  (defaultModel s = modelID -> GetDefaultModel s' = Err (ErrModelNotFound modelID)) /\
  (forall id, id <> modelID -> models s' !! id = models s !! id).
Proof.
  intros Hstat. unfold ReloadModel, loadModel. cbn [config]. rewrite Hstat.
  cbn [fst snd models defaultModel].
  split; [reflexivity|]. split; [reflexivity|]. split; [reflexivity|].
  split; [|split].
  - intros Hne. unfold GetModel. cbn [models defaultModel].
    destruct (decide (modelID = "")); [contradiction|].
    rewrite lookup_delete_eq. reflexivity.
  - intros Hd. unfold GetDefaultModel, GetModel. cbn [models defaultModel].
    rewrite Hd.
    destruct (decide (modelID = "")); rewrite lookup_delete_eq; reflexivity.
  - intros id Hne. apply lookup_delete_ne. auto.
Qed.

Lemma loadModel_found (s : ModelService) (modelID : string) :
  fsStat fs (filepathJoin (Path (Model (config s))) modelID) <> StatNotExist ->
  exists info,
    LoadedAt info = now /\
    loadModel fs filepathJoin jsonUnmarshal now s modelID =
      ({| config := config s;
          models := <[ modelID := freshModel info now ]> (models s);
          defaultModel := defaultModel s |}, None).
Proof.
  intros Hstat. unfold loadModel.
  set (info := match loadModelMetadata fs filepathJoin jsonUnmarshal now _ with
               | Some metadata => metadata
               | None => _
               end).
  exists info. split.
  - unfold info, loadModelMetadata, createDefaultMetadata.
    destruct (fsReadFile fs _) as [data|]; [|reflexivity].
    destruct (jsonUnmarshal data); reflexivity.
  - destruct (fsStat fs _); [reflexivity|contradiction|reflexivity].
Qed.

(** When the directory of the model is there, [ReloadModel] succeeds and
    registers the model anew, whether it was registered before or not: its
    counters are zero, its status is "healthy" and it is found under its
    identifier, while the other models and the name of the default are
    kept. *)
Theorem reload_resets_statistics (s : ModelService) (modelID : string) :
  fsStat fs (filepathJoin (Path (Model (config s))) modelID) <> StatNotExist ->
  let s' := fst (reload s modelID) in
  snd (reload s modelID) = None /\
  defaultModel s' = defaultModel s /\
  (forall id, id <> modelID -> models s' !! id = models s !! id) /\
  exists model,
    models s' !! modelID = Some model /\
    MPredictions model = 0 /\ Errors model = 0 /\ TotalTime model = F64.zero /\
    Health model = freshHealth now /\
    IsModelHealthy s' modelID = true /\
    LoadedAt (Info model) = now.
Proof.
  intros Hstat. unfold ReloadModel.
  set (s0 := {| config := config s; models := delete modelID (models s);
                defaultModel := defaultModel s |}).
  destruct (loadModel_found s0 modelID Hstat) as (info & Hat & ->).
  cbn [fst snd s0 config models defaultModel].
  split; [reflexivity|]. split; [reflexivity|]. split.
  - intros id Hne. rewrite lookup_insert_ne by auto. apply lookup_delete_ne. auto.
  - exists (freshModel info now). rewrite lookup_insert_eq.
    split; [reflexivity|]. split; [reflexivity|]. split; [reflexivity|].
    split; [reflexivity|]. split; [reflexivity|]. split; [|exact Hat].
    unfold IsModelHealthy. cbn [models]. rewrite lookup_insert_eq. reflexivity.
Qed.

End Reloading.

(** ** What an accepted upload starts with *)

Lemma isAllowedType_default (cfg : Config) (contentType : string) :
  AllowedTypes (Upload cfg) = AllowedTypes defaultUploadConfig ->
  isAllowedType cfg contentType = true ->
  contentType = "image/jpeg" \/ contentType = "image/png" \/ contentType = "image/webp".
Proof.
  unfold isAllowedType. intros ->. cbn [defaultUploadConfig AllowedTypes existsb].
  rewrite !orb_true_iff, !bool_decide_eq_true. intuition discriminate.
Qed.

Lemma hasPrefix_take (prefix s : list Byte.byte) (n : nat) :
  (length prefix <= n)%nat -> hasPrefix (take n s) prefix = hasPrefix s prefix.
Proof.
  revert s n. induction prefix as [|p prefix IH]; intros s n Hn.
  - destruct (take n s); destruct s; reflexivity.
  - destruct n as [|n]; [simpl in Hn; lia|].
    destruct s as [|c s]; [reflexivity|]. cbn [take hasPrefix].
    rewrite IH by (simpl in Hn; lia). reflexivity.
Qed.

Lemma bytesEqual_eq (a b : list Byte.byte) : bytesEqual a b = true -> a = b.
Proof.
  revert b. induction a as [|x a IH]; intros [|y b]; cbn [bytesEqual];
    try discriminate; [reflexivity|].
  intros H. apply andb_true_iff in H as [Hx Hab].
  apply Byte.byte_dec_bl in Hx. rewrite Hx, (IH _ Hab). reflexivity.
Qed.

(** With the default allow-list, an upload that [ValidateImage] accepts
    holds at least four bytes and starts with the magic number of JPEG, of
    PNG or of a RIFF container marked WEBP at offset 8 (twelve bytes at
    least); its declared type is one of the three allowed ones, not
    necessarily the one its bytes show, and its declared size is within the
    maximum. *)
Theorem accepted_upload_has_magic_number (cfg : Config) (file : UploadedFile)
    (header : FileHeader) :
  AllowedTypes (Upload cfg) = AllowedTypes defaultUploadConfig ->
  ValidateImage cfg file header = Ok tt ->
  let data := fileData file in
  (4 <= length data)%nat /\
  (hasPrefix data magicJPEG = true \/
   hasPrefix data magicPNG = true \/
   ((12 <= length data)%nat /\ hasPrefix data magicRIFF = true /\
    take 4 (drop 8 data) = magicWEBP)) /\
  hdrSize header <= MaxFileSize (Upload cfg) /\
  (hdrContentType header = "image/jpeg" \/ hdrContentType header = "image/png" \/
   hdrContentType header = "image/webp").
Proof.
  intros Hallow. unfold ValidateImage, fileRead.
  destruct (Z.gtb_spec (hdrSize header) (MaxFileSize (Upload cfg))) as [|Hsize];
    [discriminate|].
  destruct (isAllowedType cfg (hdrContentType header)) eqn:Hdecl; [|discriminate].
  cbn [negb]. destruct (seekFails file); [discriminate|].
  destruct (readFails file); [discriminate|].
  destruct (isAllowedType cfg (detectMimeType (take 512 (fileData file)))) eqn:Hdet;
    [|discriminate].
  intros _. cbv zeta.
  apply (isAllowedType_default _ _ Hallow) in Hdecl.
  apply (isAllowedType_default _ _ Hallow) in Hdet.
  split; [|split; [|split; [exact Hsize|exact Hdecl]]].
  - unfold detectMimeType in Hdet.
    destruct (Nat.ltb_spec (length (take 512 (fileData file))) 4) as [Hlt|Hge].
    + destruct Hdet as [H|[H|H]]; discriminate.
    + rewrite length_take in Hge. lia.
  - unfold detectMimeType in Hdet.
    destruct (length (take 512 (fileData file)) <? 4)%nat;
      [destruct Hdet as [H|[H|H]]; discriminate|].
    rewrite !hasPrefix_take in Hdet by (simpl; lia).
    destruct (hasPrefix (fileData file) magicJPEG); [left; reflexivity|].
    destruct (hasPrefix (fileData file) magicPNG); [right; left; reflexivity|].
    right; right.
    destruct (Nat.leb_spec 12 (length (take 512 (fileData file)))) as [H12|H12];
      [|destruct Hdet as [H|[H|H]]; discriminate].
    destruct (hasPrefix (fileData file) magicRIFF);
      [|destruct Hdet as [H|[H|H]]; discriminate].
    destruct (bytesEqual _ magicWEBP) eqn:Hw;
      [|destruct Hdet as [H|[H|H]]; discriminate].
    apply bytesEqual_eq in Hw.
    split; [rewrite length_take in H12; lia|]. split; [reflexivity|].
    rewrite <- Hw. rewrite !take_drop_commute, take_take. reflexivity.
Qed.

Lemma failed_reload_witness :
  GetDefaultModel
    (fst (ReloadModel Sample.noModelDir Sample.filepathJoin Sample.jsonUnmarshal 9
                      Inputs.registry "dummy"))
  = Err (ErrModelNotFound "dummy").
Proof.
  apply (failed_reload_unregisters_model Sample.noModelDir Sample.filepathJoin
           Sample.jsonUnmarshal 9 Inputs.registry "dummy"); reflexivity.
Defined.

Lemma reload_resets_witness :
  exists model,
    models (fst (ReloadModel Sample.emptyModelDir Sample.filepathJoin
                             Sample.jsonUnmarshal 9
                             (recordOutcomes "dummy" Inputs.calls Inputs.registry)
                             "dummy")) !! "dummy" = Some model /\
    MPredictions model = 0 /\ Errors model = 0.
Proof.
  destruct (reload_resets_statistics Sample.emptyModelDir Sample.filepathJoin
              Sample.jsonUnmarshal 9
              (recordOutcomes "dummy" Inputs.calls Inputs.registry) "dummy")
    as (_ & _ & _ & model & Hm & Hp & He & _).
  { vm_compute. discriminate. }
  exists model. auto.
Defined.

Lemma accepted_upload_witness :
  hasPrefix (fileData Inputs.pngFile) magicPNG = true /\
  (4 <= length (fileData Inputs.pngFile))%nat.
Proof.
  destruct (accepted_upload_has_magic_number Sample.cfg Inputs.pngFile Inputs.pngHeader)
    as (Hlen & _); [reflexivity|reflexivity|].
  split; [reflexivity|exact Hlen].
Defined.

(** ** Reading a prediction result *)

Lemma SFgeb_not_ltb (x y : spec_float) :
  is_nan x = false -> is_nan y = false -> SFgeb x y = true -> SFltb x y = false.
Proof.
  intros Hx Hy Hg. unfold SFgeb in Hg.
  apply (SFleb_rank y x Hy Hx) in Hg.
  destruct (SFltb x y) eqn:Hl; [|reflexivity].
  apply (SFltb_rank x y Hx Hy) in Hl. contradiction.
Qed.

Lemma SFgeb_trans (x y z : spec_float) :
  is_nan x = false -> is_nan y = false -> is_nan z = false ->
  SFgeb x y = true -> SFgeb y z = true -> SFgeb x z = true.
Proof.
  intros Hx Hy Hz Hxy Hyz. apply SFgeb_of_not_ltb; [assumption..|].
  apply (SFltb_negtrans x y z); try assumption; apply SFgeb_not_ltb; assumption.
Qed.

(** In a list in non-increasing order of confidence, without NaN, no entry
    is above the first. *)
Lemma sorted_first_is_greatest (x : ClassificationResult)
    (l : list ClassificationResult) :
  sortedByConfidence (x :: l) ->
  Forall (fun p => is_nan (CRConfidence p) = false) (x :: l) ->
  Forall (fun p => SFgeb (CRConfidence x) (CRConfidence p) = true) (x :: l).
Proof.
  revert x. induction l as [|y l IH]; intros x Hs Hn.
  - constructor; [|constructor]. inversion Hn; subst.
    apply SFgeb_of_not_ltb; [assumption..|apply SFltb_irrefl].
  - inversion Hs as [|? ? Hs' Hhd]; subst. inversion Hhd as [|? ? Hxy]; subst.
    inversion Hn as [|? ? Hx Hn']; subst.
    pose proof (IH y Hs' Hn') as Hy.
    assert (Hyn : is_nan (CRConfidence y) = false) by (inversion Hn'; assumption).
    constructor.
    + apply SFgeb_of_not_ltb; [assumption..|apply SFltb_irrefl].
    + rewrite Forall_forall in Hy, Hn' |- *. intros p Hp.
      apply (SFgeb_trans _ (CRConfidence y)); auto.
Qed.

Lemma foldl_filter_app {A} (keep : A -> bool) (l acc : list A) :
  foldl (fun filtered a => if keep a then filtered ++ [a] else filtered) acc l
  = acc ++ List.filter keep l.
Proof.
  revert acc. induction l as [|a l IH]; intros acc; cbn [foldl List.filter].
  - rewrite app_nil_r. reflexivity.
  - rewrite IH. destruct (keep a); [|reflexivity].
    rewrite <- app_assoc. reflexivity.
Qed.

(** Below a first entry that misses the threshold, every entry does. *)
Lemma sorted_filter_is_prefix (threshold : float64)
    (l : list ClassificationResult) :
  sortedByConfidence l ->
  Forall (fun p => is_nan (CRConfidence p) = false) l ->
  let kept := List.filter (fun p => SFgeb (CRConfidence p) threshold) l in
  kept = take (length kept) l /\
  Forall (fun p => SFgeb (CRConfidence p) threshold = false) (drop (length kept) l).
Proof.
  induction l as [|x l IH]; intros Hs Hn; [split; [reflexivity|constructor]|].
  cbn [List.filter]. cbv zeta.
  destruct (SFgeb (CRConfidence x) threshold) eqn:Hx.
  - cbn [length take drop].
    destruct IH as [IH1 IH2]; [inversion Hs; assumption|inversion Hn; assumption|].
    split; [f_equal; exact IH1|exact IH2].
  - assert (Hrej : Forall (fun p => SFgeb (CRConfidence p) threshold = false) l).
    { pose proof (sorted_first_is_greatest x l Hs Hn) as Hg.
      inversion Hg as [|? ? _ Hg']; subst. inversion Hn as [|? ? Hxn Hn']; subst.
      rewrite Forall_forall in Hg', Hn' |- *. intros y Hy.
      destruct (SFgeb (CRConfidence y) threshold) eqn:Hyt; [|reflexivity].
      destruct (is_nan threshold) eqn:Ht.
      { destruct threshold; discriminate. }
      rewrite (SFgeb_trans _ _ _ Hxn (Hn' y Hy) Ht (Hg' y Hy) Hyt) in Hx. discriminate. }
    assert (Hnone : List.filter (fun p => SFgeb (CRConfidence p) threshold) l = []).
    { clear - Hrej. induction Hrej as [|y l Hy _ IHl]; [reflexivity|].
      cbn [List.filter]. rewrite Hy. exact IHl. }
    rewrite Hnone. cbn [length take drop]. split; [reflexivity|].
    constructor; [exact Hx|exact Hrej].
Qed.

Lemma normalizeProbabilities_fields (l : list ClassificationResult) :
  Forall2 (fun p q => CRClassName q = CRClassName p /\ CRLabel q = CRLabel p /\
                      CRDescription q = CRDescription p /\
                      CRConfidence q = CRConfidence p)
          l (normalizeProbabilities l).
Proof.
  unfold normalizeProbabilities.
  generalize (foldl (fun total pred => F64.add total (CRProbability pred)) F64.zero l).
  intros total. destruct (F64.gtb _ _).
  - induction l as [|a l IH]; cbn [map]; [constructor|].
    constructor; [cbn; auto|exact IH].
  - induction l as [|a l IH]; [constructor|]. constructor; [auto|exact IH].
Qed.

Section Reading.

Variable mathExp : float64 -> float64.
Variable mathSin : float64 -> float64.
Variable sortSlice :
  (ClassificationResult -> ClassificationResult -> bool) ->
  list ClassificationResult -> list ClassificationResult.
Variable Image : Type.
Variables pngDecode jpegDecode webpDecode : list Byte.byte -> option Image.
Variable resizeImage : Image -> Z -> Z -> Image.
Variable convertToRGB : Image -> Image.
Variable jpegEncode : Image -> Z -> option (list Byte.byte).

Local Abbreviation predict :=
  (PredictImage mathExp mathSin sortSlice Image pngDecode jpegDecode webpDecode
                resizeImage convertToRGB jpegEncode).

(** Where an entry of the simulation comes from. *)
Lemma simulate_entries (seed : Z) (classes : list string) :
  forall i,
  Forall (fun p => entryOfClass mathExp mathSin seed (fun j => (i <= j)%nat /\
                     classes !! (j - i)%nat = Some (CRClassName p)) p)
         (simulate mathExp mathSin seed i classes).
Proof.
  induction classes as [|class rest IH]; intros i; cbn [simulate]; [constructor|].
  destruct (Nat.leb_spec 10 i) as [Hi|Hi]; [constructor|].
  assert (Hrest : Forall (fun p => entryOfClass mathExp mathSin seed (fun j => (i <= j)%nat /\
                     (class :: rest) !! (j - i)%nat = Some (CRClassName p)) p)
                   (simulate mathExp mathSin seed (S i) rest)).
  { eapply Forall_impl; [apply (IH (S i))|].
    intros p (j & (Hj & Hc) & Hlt & Hrest). exists j. split; [|split; assumption].
    split; [lia|]. replace (j - i)%nat with (S (j - S i)) by lia. exact Hc. }
  destruct (F64.gtb _ c_0_01) eqn:Hg; [|exact Hrest].
  constructor; [|exact Hrest].
  exists i. split; [split; [lia|]|].
  - rewrite Nat.sub_diag. reflexivity.
  - split; [lia|]. cbn. repeat split; try reflexivity. exact Hg.
Qed.

Hypothesis sort_doc : GoSortSlice sortSlice.

Lemma performInference_entries (pd : list Byte.byte) (model : LoadedModel)
    (preds : list ClassificationResult) :
  performInference mathExp mathSin sortSlice pd model = Some preds ->
  preds <> [] /\
  sortedByConfidence preds /\
  Forall (fun p => entryOfClass mathExp mathSin (Z.of_nat (length pd))
                     (fun j => Classes (Info model) !! j = Some (CRClassName p)) p)
         preds.
Proof.
  unfold performInference.
  set (seed := Z.of_nat (length pd)).
  set (raw := simulate mathExp mathSin seed 0 (Classes (Info model))).
  set (candidates := sortSlice byConfidenceDesc raw).
  set (normalized := normalizeProbabilities candidates).
  destruct (sort_doc byConfidenceDesc raw) as [Hperm Hsorted].
  fold candidates in Hperm, Hsorted.
  assert (Hraw : Forall (fun p => entryOfClass mathExp mathSin seed
                     (fun j => Classes (Info model) !! j = Some (CRClassName p)) p) raw).
  { eapply Forall_impl; [apply (simulate_entries seed (Classes (Info model)) 0)|].
    intros p (j & (_ & Hc) & H). exists j. rewrite Nat.sub_0_r in Hc. auto. }
  assert (Hcand : Forall (fun p => entryOfClass mathExp mathSin seed
                     (fun j => Classes (Info model) !! j = Some (CRClassName p)) p)
                    candidates).
  { rewrite Forall_forall in Hraw |- *. intros p Hin. apply Hraw.
    apply list_elem_of_In. apply (Permutation_in _ Hperm). apply list_elem_of_In, Hin. }
  assert (Hnan : forall l,
            Forall (fun p => entryOfClass mathExp mathSin seed
                     (fun j => Classes (Info model) !! j = Some (CRClassName p)) p) l ->
            Forall (fun p => is_nan (CRConfidence p) = false) l).
  { intros l Hl. eapply Forall_impl; [exact Hl|].
    intros p (j & _ & _ & _ & _ & _ & Hg).
    exact (proj2 (SFltb_not_nan _ _ Hg)). }
  assert (Hcsorted : sortedByConfidence candidates).
  { unfold sortedByConfidence.
    apply (Sorted_weaken (fun a b => byConfidenceDesc b a = false));
      [|apply Hsorted, byConfidenceDesc_strictWeak, Hnan, Hraw].
    intros a b Ha Hb Hab. pose proof (Hnan _ Hcand) as Hn. rewrite Forall_forall in Hn.
    apply SFgeb_of_not_ltb; [| |exact Hab]; apply Hn, list_elem_of_In; assumption. }
  assert (Hnsorted : sortedByConfidence normalized).
  { refine (Sorted_same_keys CRConfidence (fun x y => SFgeb x y = true) _ _ _ Hcsorted).
    symmetry. apply normalizeProbabilities_confidence. }
  assert (Hnorm : Forall (fun p => entryOfClass mathExp mathSin seed
                     (fun j => Classes (Info model) !! j = Some (CRClassName p)) p)
                    normalized).
  { pose proof (normalizeProbabilities_fields candidates) as Hf. fold normalized in Hf.
    clear - Hf Hcand. induction Hf as [|p q l l' (Hc & Hl & Hd & Hcf) Hf IH];
      [constructor|].
    inversion Hcand as [|? ? (j & Hj & Hlt & H1 & H2 & H3 & H4) Hcand']; subst.
    constructor; [|apply IH, Hcand'].
    exists j. rewrite Hc, Hl, Hd, Hcf. auto 10. }
  assert (Htake : (if (5 <? length normalized)%nat then take 5 normalized else normalized)
                  = take 5 normalized).
  { destruct (Nat.ltb_spec 5 (length normalized)); [reflexivity|].
    symmetry. apply take_ge. lia. }
  rewrite Htake.
  destruct (Nat.eqb_spec (length (take 5 normalized)) 0) as [Hz|Hnz]; [discriminate|].
  intros [= <-].
  split; [intros He; rewrite He in Hnz; apply Hnz; reflexivity|].
  split; [apply Sorted_take, Hnsorted|apply Forall_take, Hnorm].
Qed.

End Reading.

Section ReadingResults.

Variable mathExp : float64 -> float64.
Variable mathSin : float64 -> float64.
Variable sortSlice :
  (ClassificationResult -> ClassificationResult -> bool) ->
  list ClassificationResult -> list ClassificationResult.
Variable Image : Type.
Variables pngDecode jpegDecode webpDecode : list Byte.byte -> option Image.
Variable resizeImage : Image -> Z -> Z -> Image.
Variable convertToRGB : Image -> Image.
Variable jpegEncode : Image -> Z -> option (list Byte.byte).

Local Abbreviation predict :=
  (PredictImage mathExp mathSin sortSlice Image pngDecode jpegDecode webpDecode
                resizeImage convertToRGB jpegEncode).

Hypothesis sort_doc : GoSortSlice sortSlice.

Lemma PredictImage_entries (env : CallEnv) (s s' : PredictionService)
    (imageData : list Byte.byte) (metadata : ImageMetadata) (modelID : string)
    (result : PredictionResult) :
  predict env s imageData metadata modelID = (s', Ok result) ->
  exists model processedData,
    GetModel (modelService s) modelID = Ok model /\
    PRModelInfo result = Info model /\
    performInference mathExp mathSin sortSlice processedData model
      = Some (Predictions result).
Proof.
  intros Hp.
  destruct (PredictImage_cases mathExp mathSin sortSlice Image pngDecode jpegDecode
              webpDecode resizeImage convertToRGB jpegEncode
              env s imageData metadata modelID)
    as [(e & He & _) | [(model & pd & _ & _ & He) | (model & pd & preds & Hm & Hi & He)]];
    rewrite He in Hp; try discriminate.
  injection Hp as _ <-. exists model, pd. auto.
Qed.

(** [GetTopPrediction] of a result that [PredictImage] returned is its
    first entry, and no entry of the result has a higher confidence. *)
Theorem top_prediction_is_most_confident (env : CallEnv) (s s' : PredictionService)
    (imageData : list Byte.byte) (metadata : ImageMetadata) (modelID : string)
    (result : PredictionResult) :
  predict env s imageData metadata modelID = (s', Ok result) ->
  exists top,
    GetTopPrediction result = Some top /\
    head (Predictions result) = Some top /\
    Forall (fun p => SFgeb (CRConfidence top) (CRConfidence p) = true /\
                     F64.gtb (CRConfidence p) (CRConfidence top) = false)
           (Predictions result).
Proof.
  intros Hp.
  destruct (PredictImage_entries _ _ _ _ _ _ _ Hp) as (model & pd & _ & _ & Hi).
  destruct (performInference_entries _ _ _ sort_doc _ _ _ Hi) as (Hne & Hs & He).
  unfold GetTopPrediction.
  destruct (Predictions result) as [|top rest]; [contradiction|].
  exists top. split; [reflexivity|]. split; [reflexivity|].
  assert (Hn : Forall (fun p => is_nan (CRConfidence p) = false) (top :: rest)).
  { eapply Forall_impl; [exact He|]. intros p (j & _ & _ & _ & _ & _ & Hg).
    exact (proj2 (SFltb_not_nan _ _ Hg)). }
  pose proof (sorted_first_is_greatest top rest Hs Hn) as Hg.
  rewrite Forall_forall in Hg, Hn |- *. intros p Hin.
  split; [apply Hg, Hin|].
  apply SFgeb_not_ltb; [apply Hn; left| |]; auto.
Qed.

(** [GetPredictionsByThreshold] keeps exactly the entries whose confidence
    is at least the threshold; on a result that [PredictImage] returned
    these are the first entries of the result, in their order, and none when
    the threshold is NaN. *)
Theorem threshold_keeps_a_prefix (env : CallEnv) (s s' : PredictionService)
    (imageData : list Byte.byte) (metadata : ImageMetadata) (modelID : string)
    (result : PredictionResult) (threshold : float64) :
  predict env s imageData metadata modelID = (s', Ok result) ->
  let kept := GetPredictionsByThreshold result threshold in
  kept = take (length kept) (Predictions result) /\
  Forall (fun p => SFgeb (CRConfidence p) threshold = true) kept /\
  Forall (fun p => SFgeb (CRConfidence p) threshold = false)
         (drop (length kept) (Predictions result)) /\
  (is_nan threshold = true -> kept = []).
Proof.
  intros Hp.
  destruct (PredictImage_entries _ _ _ _ _ _ _ Hp) as (model & pd & _ & _ & Hi).
  destruct (performInference_entries _ _ _ sort_doc _ _ _ Hi) as (Hne & Hs & He).
  assert (Hn : Forall (fun p => is_nan (CRConfidence p) = false) (Predictions result)).
  { eapply Forall_impl; [exact He|]. intros p (j & _ & _ & _ & _ & _ & Hg).
    exact (proj2 (SFltb_not_nan _ _ Hg)). }
  unfold GetPredictionsByThreshold. rewrite foldl_filter_app. cbn [app]. cbv zeta.
  destruct (sorted_filter_is_prefix threshold _ Hs Hn) as [Hpre Hrej].
  set (keep := fun p : ClassificationResult => SFgeb (CRConfidence p) threshold) in *.
  split; [exact Hpre|]. split; [|split; [exact Hrej|]].
  - apply Forall_forall. intros p Hin.
    apply list_elem_of_In, filter_In in Hin. apply Hin.
  - intros Ht. destruct threshold; try discriminate.
    clear. induction (Predictions result) as [|x l IH]; [reflexivity|].
    cbn [List.filter]. exact IH.
Qed.

(** Every entry of a result that [PredictImage] returned names one of the
    first ten classes of the model that the result records: it is labelled
    with the class name, described by [getClassDescription], and its
    confidence is the one generated for the index of that class. *)
Theorem predicted_entries_name_model_classes (env : CallEnv)
    (s s' : PredictionService) (imageData : list Byte.byte)
    (metadata : ImageMetadata) (modelID : string) (result : PredictionResult) :
  predict env s imageData metadata modelID = (s', Ok result) ->
  exists seed,
    0 <= seed /\
    Forall (fun p =>
              exists j : nat,
                (j < 10)%nat /\
                Classes (PRModelInfo result) !! j = Some (CRClassName p) /\
                CRLabel p = CRClassName p /\
                CRDescription p = getClassDescription (CRClassName p) /\
                CRConfidence p = generateConfidence mathExp mathSin seed (Z.of_nat j))
           (Predictions result).
Proof.
  intros Hp.
  destruct (PredictImage_entries _ _ _ _ _ _ _ Hp) as (model & pd & _ & Hinfo & Hi).
  destruct (performInference_entries _ _ _ sort_doc _ _ _ Hi) as (_ & _ & He).
  exists (Z.of_nat (length pd)). split; [lia|].
  eapply Forall_impl; [exact He|].
  intros p (j & Hc & Hlt & Hl & Hd & Hcf & _). exists j. rewrite Hinfo. auto.
Qed.

End ReadingResults.

Lemma top_prediction_witness :
  exists result top,
    snd (Sample.predictImage Inputs.env Inputs.service Inputs.pngBytes Inputs.metadata "")
      = Ok result /\
    GetTopPrediction result = Some top /\
    Forall (fun p => SFgeb (CRConfidence top) (CRConfidence p) = true)
           (Predictions result).
Proof.
  eassert (Hp : Sample.predictImage Inputs.env Inputs.service Inputs.pngBytes
                  Inputs.metadata "" = (_, Ok _)).
  { vm_compute. reflexivity. }
  destruct (top_prediction_is_most_confident _ _ _ _ _ _ _ _ _ _
              sample_sort_is_sort _ _ _ _ _ _ _ Hp) as (top & Ht & _ & Hall).
  eexists. exists top. split; [rewrite Hp; reflexivity|]. split; [exact Ht|].
  eapply Forall_impl; [exact Hall|]. intros p [H _]. exact H.
Defined.

Lemma threshold_prefix_witness :
  exists result,
    snd (Sample.predictImage Inputs.env Inputs.service Inputs.pngBytes Inputs.metadata "")
      = Ok result /\
    GetPredictionsByThreshold result c_0_5
      = take (length (GetPredictionsByThreshold result c_0_5)) (Predictions result).
Proof.
  eassert (Hp : Sample.predictImage Inputs.env Inputs.service Inputs.pngBytes
                  Inputs.metadata "" = (_, Ok _)).
  { vm_compute. reflexivity. }
  eexists. split; [rewrite Hp; reflexivity|].
  destruct (threshold_keeps_a_prefix _ _ _ _ _ _ _ _ _ _
              sample_sort_is_sort _ _ _ _ _ _ _ c_0_5 Hp) as [H _].
  exact H.
Defined.

Lemma predicted_entries_classes_witness :
  exists result,
    snd (Sample.predictImage Inputs.env Inputs.service Inputs.pngBytes Inputs.metadata "")
      = Ok result /\
    Forall (fun p => CRLabel p = CRClassName p) (Predictions result).
Proof.
  eassert (Hp : Sample.predictImage Inputs.env Inputs.service Inputs.pngBytes
                  Inputs.metadata "" = (_, Ok _)).
  { vm_compute. reflexivity. }
  destruct (predicted_entries_name_model_classes _ _ _ _ _ _ _ _ _ _
              sample_sort_is_sort _ _ _ _ _ _ _ Hp) as (seed & _ & Hall).
  eexists. split; [rewrite Hp; reflexivity|].
  eapply Forall_impl; [exact Hall|]. intros p (j & _ & _ & Hl & _). exact Hl.
Defined.

(** ** Validation of a model *)

(** [ValidateModelForPrediction] accepts a non-empty identifier exactly
    when it names a registered model whose status is "healthy", whose input
    shape has three dimensions and which has class names. It never accepts
    the empty identifier unless a model is registered under the empty name:
    [GetModel] resolves it to the default model, but [IsModelHealthy] looks
    up the empty name itself, so the answer is "not healthy" even though the
    default model is found. *)
Theorem model_validation_cases (s : PredictionService) :
  (forall modelID, modelID <> "" ->
     (ValidateModelForPrediction s modelID = Ok tt <->
      exists model,
        models (modelService s) !! modelID = Some model /\
        Status (Health model) = "healthy" /\
        length (InputShape (Info model)) = 3%nat /\
        Classes (Info model) <> [])) /\
  (models (modelService s) !! "" = None ->
     is_ok (ValidateModelForPrediction s "") = false /\
     (is_Some (models (modelService s) !! defaultModel (modelService s)) ->
        ValidateModelForPrediction s "" = Err (ErrNotHealthy ""))).
Proof.
  split.
  - intros modelID Hne. unfold ValidateModelForPrediction, GetModel, IsModelHealthy.
    destruct (decide (modelID = "")); [contradiction|].
    destruct (models (modelService s) !! modelID) as [model|] eqn:Hm.
    + destruct (decide (Status (Health model) = "healthy")) as [Hh|Hh].
      * rewrite (bool_decide_eq_true_2 _ Hh). cbn [negb].
        destruct (Nat.eqb_spec (length (InputShape (Info model))) 3) as [H3|H3];
          cbn [negb].
        -- destruct (Nat.eqb_spec (length (Classes (Info model))) 0) as [H0|H0].
           ++ split; [discriminate|]. intros (m & [= <-] & _ & _ & Hc).
              destruct (Classes (Info model)); [contradiction|discriminate].
           ++ split; [|reflexivity]. intros _. exists model.
              repeat split; auto. intros Hc. rewrite Hc in H0. contradiction.
        -- split; [discriminate|]. intros (m & [= <-] & _ & Hl & _). contradiction.
      * rewrite (bool_decide_eq_false_2 _ Hh). cbn [negb].
        split; [discriminate|]. intros (m & [= <-] & Hs & _). contradiction.
    + split; [discriminate|]. intros (m & Hm' & _). discriminate.
  - intros Hempty. unfold ValidateModelForPrediction, GetModel, IsModelHealthy.
    destruct (decide ("" = "")) as [_|]; [|contradiction].
    rewrite Hempty. cbn [negb].
    destruct (models (modelService s) !! defaultModel (modelService s)) as [model|].
    + split; [reflexivity|]. intros _. reflexivity.
    + split; [reflexivity|]. intros [m Hm]. discriminate.
Qed.

(** ** Batches *)

Section Batches.

Variable mathExp : float64 -> float64.
Variable mathSin : float64 -> float64.
Variable sortSlice :
  (ClassificationResult -> ClassificationResult -> bool) ->
  list ClassificationResult -> list ClassificationResult.
Variable Image : Type.
Variables pngDecode jpegDecode webpDecode : list Byte.byte -> option Image.
Variable resizeImage : Image -> Z -> Z -> Image.
Variable convertToRGB : Image -> Image.
Variable jpegEncode : Image -> Z -> option (list Byte.byte).
Variable uploadedAt : nat -> Time.
Variable callEnv : nat -> CallEnv.
Variable errorText : PredictError -> string.

Local Abbreviation predict :=
  (PredictImage mathExp mathSin sortSlice Image pngDecode jpegDecode webpDecode
                resizeImage convertToRGB jpegEncode).
Local Abbreviation loop :=
  (batchLoop mathExp mathSin sortSlice Image pngDecode jpegDecode webpDecode
             resizeImage convertToRGB jpegEncode uploadedAt callEnv errorText).
Local Abbreviation batch :=
  (BatchPredict mathExp mathSin sortSlice Image pngDecode jpegDecode webpDecode
                resizeImage convertToRGB jpegEncode uploadedAt callEnv errorText).

Lemma PredictImage_no_panic (env : CallEnv) (s : PredictionService)
    (imageData : list Byte.byte) (metadata : ImageMetadata) (modelID : string) :
  snd (predict env s imageData metadata modelID) <> Panic.
Proof.
  destruct (PredictImage_cases mathExp mathSin sortSlice Image pngDecode jpegDecode
              webpDecode resizeImage convertToRGB jpegEncode
              env s imageData metadata modelID)
    as [(e & He & _) | [(model & pd & _ & _ & He) | (model & pd & preds & _ & _ & He)]];
    rewrite He; discriminate.
Qed.

Lemma batchLoop_partition (requests : list ImageRequest) (modelID : string) :
  forall i s response,
  exists s' response',
    loop i requests modelID s response = (s', Ok response') /\
    (forall id,
       is_Some (BatchResults response' !! id) \/ is_Some (BatchErrors response' !! id) <->
       is_Some (BatchResults response !! id) \/ is_Some (BatchErrors response !! id) \/
       In id (map reqID requests)) /\
    (NoDup (map reqID requests) ->
     (forall id, In id (map reqID requests) ->
        BatchResults response !! id = None /\ BatchErrors response !! id = None) ->
     (forall id, BatchResults response !! id = None \/ BatchErrors response !! id = None) ->
     (forall id, BatchResults response' !! id = None \/ BatchErrors response' !! id = None) /\
     (size (BatchResults response') + size (BatchErrors response') =
      size (BatchResults response) + size (BatchErrors response) + length requests)%nat).
Proof.
  induction requests as [|req rest IH]; intros i s response.
  - exists s, response. split; [reflexivity|]. split.
    + intros id. cbn. tauto.
    + intros _ _ Hd. split; [exact Hd|]. cbn. lia.
  - cbn [batchLoop].
    set (metadata := {| Filename := reqFilename req; Size := _; Width := 0; Height := 0;
                        Format := ""; ContentType := ""; UploadedAt := uploadedAt i |}).
    pose proof (PredictImage_no_panic (callEnv i) s (reqData req) metadata modelID) as Hnp.
    destruct (predict (callEnv i) s (reqData req) metadata modelID) as [s1 [result|e|]];
      cbn [snd] in Hnp; [| |contradiction].
    + set (response1 := {| Success := Success response;
                           BatchResults := <[ reqID req := result ]> (BatchResults response);
                           BatchErrors := BatchErrors response;
                           BatchProcessTime := BatchProcessTime response |}).
      destruct (IH (S i) s1 response1) as (s' & response' & Hl & Hkeys & Hdis).
      exists s', response'. split; [exact Hl|]. split.
      * intros id. rewrite Hkeys. cbn [response1 BatchResults BatchErrors map In].
        destruct (decide (id = reqID req)) as [->|Hne].
        -- rewrite lookup_insert_eq. split; [auto|]. intros _. left. eauto.
        -- rewrite lookup_insert_ne by auto. intuition congruence.
      * intros Hnd Hfresh Hd. cbn [map] in Hnd. inversion Hnd as [|? ? Hnotin Hnd']; subst.
        destruct (Hfresh (reqID req)) as [HR HE]; [left; reflexivity|].
        destruct Hdis as [Hd' Hsz]; [exact Hnd'| | |].
        -- intros id Hin. cbn [response1 BatchResults BatchErrors].
           rewrite lookup_insert_ne
             by (intros Heq; rewrite <- Heq in Hin; apply Hnotin, list_elem_of_In, Hin).
           apply Hfresh. right. exact Hin.
        -- intros id. cbn [response1 BatchResults BatchErrors].
           destruct (decide (id = reqID req)) as [->|Hne]; [right; exact HE|].
           rewrite lookup_insert_ne by auto. apply Hd.
        -- split; [exact Hd'|]. rewrite Hsz. cbn [response1 BatchResults BatchErrors].
           rewrite (map_size_insert_None _ _ _ HR). cbn [length]. lia.
    + set (response1 := {| Success := Success response;
                           BatchResults := BatchResults response;
                           BatchErrors :=
                             <[ reqID req := NewErrorResponse ErrorCodePredictionFailed
                                               "Prediction failed" (errorText e) ]>
                             (BatchErrors response);
                           BatchProcessTime := BatchProcessTime response |}).
      destruct (IH (S i) s1 response1) as (s' & response' & Hl & Hkeys & Hdis).
      exists s', response'. split; [exact Hl|]. split.
      * intros id. rewrite Hkeys. cbn [response1 BatchResults BatchErrors map In].
        destruct (decide (id = reqID req)) as [->|Hne].
        -- rewrite lookup_insert_eq. split; [auto|]. intros _. right. left. eauto.
        -- rewrite lookup_insert_ne by auto. intuition congruence.
      * intros Hnd Hfresh Hd. cbn [map] in Hnd. inversion Hnd as [|? ? Hnotin Hnd']; subst.
        destruct (Hfresh (reqID req)) as [HR HE]; [left; reflexivity|].
        destruct Hdis as [Hd' Hsz]; [exact Hnd'| | |].
        -- intros id Hin. cbn [response1 BatchResults BatchErrors].
           rewrite lookup_insert_ne
             by (intros Heq; rewrite <- Heq in Hin; apply Hnotin, list_elem_of_In, Hin).
           apply Hfresh. right. exact Hin.
        -- intros id. cbn [response1 BatchResults BatchErrors].
           destruct (decide (id = reqID req)) as [->|Hne]; [left; exact HR|].
           rewrite lookup_insert_ne by auto. apply Hd.
        -- split; [exact Hd'|]. rewrite Hsz. cbn [response1 BatchResults BatchErrors].
           rewrite (map_size_insert_None _ _ _ HE). cbn [length]. lia.
Qed.

(** [BatchPredict] always returns a response: every request identifier is
    a key of its results or of its errors and no other key is; [Success]
    tells that there is no error; when the identifiers of the requests are
    distinct, no identifier is in both tables and the tables hold as many
    entries as there are requests. *)
Theorem batch_predict_partitions_requests (elapsedNs : Z) (s : PredictionService)
    (requests : list ImageRequest) (modelID : string) :
  exists s' response,
    batch elapsedNs s requests modelID = (s', Ok response) /\
    (forall id,
       In id (map reqID requests) <->
       is_Some (BatchResults response !! id) \/ is_Some (BatchErrors response !! id)) /\
    (Success response = true <-> BatchErrors response = ∅) /\
    (requests = [] -> Success response = true) /\
    (NoDup (map reqID requests) ->
       (forall id, BatchResults response !! id = None \/ BatchErrors response !! id = None) /\
       (size (BatchResults response) + size (BatchErrors response) = length requests)%nat).
Proof.
  unfold BatchPredict.
  set (response0 := {| Success := false; BatchResults := ∅; BatchErrors := ∅;
                       BatchProcessTime := F64.zero |}).
  destruct (batchLoop_partition requests modelID 0%nat s response0)
    as (s' & response' & Hl & Hkeys & Hdis).
  rewrite Hl. eexists. eexists. split; [reflexivity|].
  cbn [Success BatchResults BatchErrors].
  split; [|split; [|split]].
  - intros id. rewrite Hkeys. cbn [response0 BatchResults BatchErrors].
    rewrite !lookup_empty. split; [auto|].
    intros [[x H]|[[x H]|H]]; [discriminate|discriminate|exact H].
  - rewrite bool_decide_eq_true. split.
    + apply map_size_empty_inv.
    + intros ->. apply map_size_empty.
  - intros ->. cbn in Hl. injection Hl as _ <-. reflexivity.
  - intros Hnd. destruct Hdis as [Hd Hsz]; [exact Hnd| | |].
    + intros id _. cbn. rewrite !lookup_empty. auto.
    + intros id. left. apply lookup_empty.
    + split; [exact Hd|]. rewrite Hsz. cbn [response0 BatchResults BatchErrors].
      rewrite !map_size_empty. lia.
Qed.

End Batches.
